(** * counterfactual-frontend: the rendering components and the submission
    workflow, embedded from the TypeScript sources.

    Conventions of the embedding.
    - A JavaScript string is its sequence of UTF-16 code units ([jsstring]).
    - A JavaScript number that carries a score, a strength or a pixel
      coordinate is an exact rational ([Q]); the rounding of IEEE doubles is
      outside the model, and the statements below are kept to facts that do
      not depend on it unless they say so.
    - An array that is only read is a [list]; the one array that is written
      in place (the branch-point array sorted by [BranchPointHighlighter]) is
      threaded explicitly: the component returns the array's contents after
      the render next to its view.
    - [handleAnalyze] runs in a small monad over the React state, the remote
      service and the trace of observable events, with exceptions. *)

From Stdlib Require Import String Ascii NArith ZArith QArith Qminmax.
From Stdlib Require Import Bool Lia Lqa List Permutation Sorted.
Import ListNotations.

(* ------------------------------------------------------------------ *)
(** ** JavaScript strings *)

Definition jsstring := list N.

Fixpoint lit (s : string) : jsstring :=
  match s with
  | EmptyString => []
  | String c r => N_of_ascii c :: lit r
  end.

Coercion lit : string >-> jsstring.

(** [a === b] on strings. *)
Fixpoint String_eq (a b : jsstring) : bool :=
  match a, b with
  | [], [] => true
  | x :: a', y :: b' => N.eqb x y && String_eq a' b'
  | _, _ => false
  end.

(** WhiteSpace and LineTerminator code units, the ones [String.prototype.trim]
    strips. *)
Definition isWhiteSpace (c : N) : bool :=
  ((9 <=? c) && (c <=? 13) || (c =? 32) || (c =? 160) || (c =? 5760)
   || (8192 <=? c) && (c <=? 8202) || (c =? 8232) || (c =? 8233)
   || (c =? 8239) || (c =? 8287) || (c =? 12288) || (c =? 65279))%N.

Fixpoint trimStart (s : jsstring) : jsstring :=
  match s with
  | [] => []
  | c :: r => if isWhiteSpace c then trimStart r else s
  end.

Definition trimEnd (s : jsstring) : jsstring := rev (trimStart (rev s)).

Definition trim (s : jsstring) : jsstring := trimEnd (trimStart s).

(** [s.substring(0, n)] *)
Definition substring0 (n : nat) (s : jsstring) : jsstring := firstn n s.

(* ------------------------------------------------------------------ *)
(** ** The analysis result (interfaces of CounterfactualDemo.tsx) *)

Inductive BranchType := procedural | substantive | evidence | timing.

Definition BranchType_eqb (a b : BranchType) : bool :=
  match a, b with
  | procedural, procedural | substantive, substantive
  | evidence, evidence | timing, timing => true
  | _, _ => false
  end.

Definition BranchType_name (t : BranchType) : jsstring :=
  match t with
  | procedural => "procedural"%string
  | substantive => "substantive"%string
  | evidence => "evidence"%string
  | timing => "timing"%string
  end.

(** [text-transform: capitalize] on a word of ASCII letters, as the list
    shows the type of a branch point. *)
Definition capitalize (s : jsstring) : jsstring :=
  match s with
  | [] => []
  | c :: r => (if ((97 <=? c) && (c <=? 122))%N then (c - 32)%N else c) :: r
  end.

Definition branchTypes : list BranchType :=
  [procedural; substantive; evidence; timing].

Record BranchPoint := {
  branch_id : jsstring;
  node_id : jsstring;
  branch_type : BranchType;
  condition : jsstring;
  alternatives : list jsstring;
  criticality_score : Q
}.

Record Dependency := {
  dependency_id : jsstring;
  source_node_id : jsstring;
  target_node_id : jsstring;
  strength : Q;
  cascade_potential : bool
}.

Record Cascade := {
  cascade_id : jsstring;
  initiating_branch_id : jsstring;
  amplification_chain : list jsstring;
  severity_score : Q;
  preventable : bool
}.

Record AttorneyReferral := {
  triggered : bool;
  reason : option jsstring;
  referral_links : list jsstring
}.

Record CounterfactualAnalysis := {
  analysis_id : jsstring;
  document_id : jsstring;
  branch_points : list BranchPoint;
  dependencies : list Dependency;
  cascades : list Cascade;
  complexity_score : Q;
  attorney_referral : AttorneyReferral;
  educational_disclaimer : jsstring
}.

(* ------------------------------------------------------------------ *)
(** ** Array and Math helpers *)

(** [Math.max(x, ...xs)] with at least one argument. *)
Definition Math_max (x : Q) (xs : list Q) : Q := fold_left Qmax xs x.

(** [xs.forEach((x, i) => ...)] collecting what each step appends. *)
Fixpoint forEach_from {A B : Type} (i : nat) (f : A -> nat -> list B)
    (xs : list A) : list B :=
  match xs with
  | [] => []
  | x :: r => f x i ++ forEach_from (S i) f r
  end.

Definition forEach {A B : Type} (f : A -> nat -> list B) (xs : list A) :=
  forEach_from 0 f xs.

(* ------------------------------------------------------------------ *)
(** ** RiskHeatmap.tsx *)

Module RiskHeatmap.

Record RiskItem := {
  id : jsstring;
  type : BranchType;
  risk : Q;
  cascadeCount : nat
}.

Definition relatedCascades (cascades : list Cascade) (bp : BranchPoint) :=
  filter (fun c => String_eq (initiating_branch_id c) (branch_id bp)) cascades.

(** [relatedCascades.length > 0 ? Math.max(...scores) : 0]; the scores are
    as many as the related cascades, so the test is the match. *)
Definition maxSeverity (related : list Cascade) : Q :=
  match map severity_score related with
  | [] => 0
  | s :: ss => Math_max s ss
  end.

Definition riskItem (cascades : list Cascade) (bp : BranchPoint) : RiskItem :=
  let related := relatedCascades cascades bp in
  let combinedRisk :=
    (criticality_score bp * 0.6) + (maxSeverity related * 0.4) in
  {| id := branch_id bp;
     type := branch_type bp;
     risk := combinedRisk;
     cascadeCount := length related |}.

Definition riskData (branchPoints : list BranchPoint)
    (cascades : list Cascade) : list RiskItem :=
  map (riskItem cascades) branchPoints.

(** [typeGroups]: an object used as a map from type to the items pushed so
    far; [Object.keys] lists the types in the order they were first seen. *)
Fixpoint push_group (groups : list (BranchType * list RiskItem))
    (item : RiskItem) : list (BranchType * list RiskItem) :=
  match groups with
  | [] => [(type item, [item])]
  | (t, g) :: rest =>
      if BranchType_eqb t (type item) then (t, g ++ [item]) :: rest
      else (t, g) :: push_group rest item
  end.

Definition typeGroups (data : list RiskItem) :=
  fold_left push_group data [].

(** What the effect appends to the svg. The colour scale and the axis are
    d3's; a cell keeps the risk it is coloured by. *)
Inductive Drawn :=
| CellRect (x y : Z) (fillRisk : Q) (title_type : BranchType)
    (title_risk : Q) (title_cascades : nat)
| RiskText (x y : Z) (fill : jsstring) (value : Q)
| TypeLabel (x y : Z) (text : BranchType)
| LegendDefs
| LegendBar (x y width height : Z)
| LegendAxis (x y : Z)
| LegendCaption (x y : Z) (text : jsstring).

Definition width : Z := 600.
Definition cellSize : Z := 40.
Definition padding : Z := 40.

Definition drawItem (t : BranchType) (typeIdx : nat) (item : RiskItem)
    (itemIdx : nat) : list Drawn :=
  let x := (padding + Z.of_nat itemIdx * cellSize)%Z in
  let y := (padding + Z.of_nat typeIdx * cellSize)%Z in
  [ CellRect x y (risk item) t (risk item) (cascadeCount item);
    RiskText (x + cellSize / 2)%Z (y + cellSize / 2)%Z
      (if Qlt_le_dec 0.5 (risk item) then "white"%string else "#333"%string)
      (risk item) ].

Definition drawRow (group : BranchType * list RiskItem) (typeIdx : nat)
    : list Drawn :=
  let (t, items) := group in
  forEach (drawItem t typeIdx) items
  ++ [ TypeLabel 10 (padding + Z.of_nat typeIdx * cellSize + cellSize / 2)%Z t ].

Definition drawLegend : list Drawn :=
  let legendWidth := 200%Z in
  let legendHeight := 20%Z in
  let legendX := (width - legendWidth - 20)%Z in
  let legendY := 20%Z in
  [ LegendDefs;
    LegendBar legendX legendY legendWidth legendHeight;
    LegendAxis legendX (legendY + legendHeight)%Z;
    LegendCaption legendX (legendY - 5)%Z "Combined Risk Score"%string ].

(** The body of [useEffect]: from the children of the mounted svg before
    the effect to its children after it. *)
Definition effect (branchPoints : list BranchPoint) (cascades : list Cascade)
    (svg : list Drawn) : list Drawn :=
  if (length branchPoints =? 0)%nat then svg
  else
    (* selectAll('*').remove() *)
    forEach drawRow (typeGroups (riskData branchPoints cascades))
    ++ drawLegend.

(** The JSX the component returns: the svg element and the fixed
    information block (its two paragraphs, written here in ASCII); nothing
    in it depends on the props. *)
Inductive Jsx :=
| Container (svgElement : unit) (info : list jsstring).

Definition render (branchPoints : list BranchPoint) (cascades : list Cascade)
    : Jsx :=
  Container tt
    [ "Risk Score Formula: (Criticality x 0.6) + (Max Cascade Severity x 0.4)"%string : jsstring;
      "Color Guide: Green = Low Risk, Yellow = Medium Risk, Red = High Risk"%string : jsstring ].

(** [typeGroups[t]], with the empty row for a type that has no key. *)
Definition ofType (t : BranchType) (item : RiskItem) : bool :=
  BranchType_eqb t (type item).

Definition typeGroup (t : BranchType)
    (groups : list (BranchType * list RiskItem)) : list RiskItem :=
  match find (fun g => BranchType_eqb (fst g) t) groups with
  | Some g => snd g
  | None => []
  end.

(** What a drawn element is, to count and place the elements of a drawing. *)
Definition isCell (d : Drawn) : bool :=
  match d with CellRect _ _ _ _ _ _ => true | _ => false end.

Definition isRiskText (d : Drawn) : bool :=
  match d with RiskText _ _ _ _ => true | _ => false end.

Definition isTypeLabel (d : Drawn) : bool :=
  match d with TypeLabel _ _ _ => true | _ => false end.

(** The top-left corners of the cells of a drawing, in drawing order. *)
Fixpoint cellCorners (ds : list Drawn) : list (Z * Z) :=
  match ds with
  | [] => []
  | CellRect x y _ _ _ _ :: r => (x, y) :: cellCorners r
  | _ :: r => cellCorners r
  end.

Definition height : Z := 300.

(** The corner of the cell of the item [itemIdx] of the row [typeIdx]. *)
Definition cornerAt (typeIdx itemIdx : nat) : Z * Z :=
  ((padding + Z.of_nat itemIdx * cellSize)%Z,
   (padding + Z.of_nat typeIdx * cellSize)%Z).

End RiskHeatmap.

(* ------------------------------------------------------------------ *)
(** ** Array.prototype.sort *)

(** [arr.sort(comparefn)] sorts in place and is stable (ECMAScript 2019 and
    later). A positive [comparefn a b] sends [a] behind [b]; zero keeps the
    two in the order they had. Insertion from the right end of the array
    gives that result: an element stays in front of the ones it ties with. *)
Fixpoint sort_insert {A : Type} (comparefn : A -> A -> Q) (a : A)
    (sorted : list A) : list A :=
  match sorted with
  | [] => [a]
  | b :: rest =>
      if Qlt_le_dec 0 (comparefn a b) then b :: sort_insert comparefn a rest
      else a :: b :: rest
  end.

Fixpoint Array_sort {A : Type} (comparefn : A -> A -> Q) (arr : list A)
    : list A :=
  match arr with
  | [] => []
  | a :: rest => sort_insert comparefn a (Array_sort comparefn rest)
  end.

(** [table[key] || fallback] over a literal table. *)
Fixpoint lookupType {V : Type} (key : BranchType)
    (table : list (BranchType * V)) : option V :=
  match table with
  | [] => None
  | (k, v) :: rest => if BranchType_eqb k key then Some v else lookupType key rest
  end.

Definition typeColors : list (BranchType * jsstring) :=
  [ (procedural, "#667eea"%string : jsstring);
    (substantive, "#764ba2"%string : jsstring);
    (evidence, "#f093fb"%string : jsstring);
    (timing, "#4facfe"%string : jsstring) ].

(* ------------------------------------------------------------------ *)
(** ** BranchPointHighlighter.tsx *)

Module BranchPointHighlighter.

Definition getBranchTypeColor (type : BranchType) : jsstring :=
  match lookupType type typeColors with
  | Some c => c
  | None => "#999"%string
  end.

(** The icons are given by their code units: U+2696 U+FE0F, U+1F4CB,
    U+1F50D, U+23F0, and the fallback U+2022. *)
Definition icons : list (BranchType * jsstring) :=
  [ (procedural, [9878; 65039]%N);
    (substantive, [55357; 56523]%N);
    (evidence, [55357; 56589]%N);
    (timing, [9200]%N) ].

Definition getBranchTypeIcon (type : BranchType) : jsstring :=
  match lookupType type icons with
  | Some i => i
  | None => [8226]%N
  end.

(** One [div.branch-point-item]. The score is shown through [toFixed(2)];
    the item keeps the number that is formatted. *)
Record Item := {
  key : jsstring;
  borderLeftColor : jsstring;
  icon : jsstring;
  typeText : jsstring;
  criticality : Q;
  conditionText : jsstring;
  alternativesCount : nat;
  alternativeItems : list jsstring
}.

Inductive Jsx :=
| NoBranches (message : jsstring)
| BranchItems (items : list Item).

Definition item (bp : BranchPoint) : Item :=
  {| key := branch_id bp;
     borderLeftColor := getBranchTypeColor (branch_type bp);
     icon := getBranchTypeIcon (branch_type bp);
     typeText := BranchType_name (branch_type bp);
     criticality := criticality_score bp;
     conditionText := condition bp;
     alternativesCount := length (alternatives bp);
     alternativeItems := alternatives bp |}.

Definition byCriticalityDesc (a b : BranchPoint) : Q :=
  criticality_score b - criticality_score a.

(** The render. [branchPoints] is the caller's array: [.sort] reorders it
    in place and returns it, so the first component is what the caller's
    array holds once the component has rendered. *)
Definition render (branchPoints : list BranchPoint)
    : list BranchPoint * Jsx :=
  if (length branchPoints =? 0)%nat then
    (branchPoints,
     NoBranches "No branch points detected in this narrative."%string)
  else
    let sorted := Array_sort byCriticalityDesc branchPoints in
    (sorted, BranchItems (map item sorted)).

End BranchPointHighlighter.

(* ------------------------------------------------------------------ *)
(** ** LogicTreeVisualization.tsx *)

(** [dep.strength], named apart from the [strength] of a link below. *)
Definition dependency_strength (dep : Dependency) : Q := strength dep.

Module LogicTreeVisualization.

(** A node is a fresh object made from a branch point. The force simulation
    and the drag handlers write positions ([x], [y], and the pinned [fx],
    [fy]) into these objects only. *)
Record Node := {
  id : jsstring;
  label : jsstring;
  criticality : Q;
  type : BranchType;
  x : Q;
  y : Q
}.

Record Link := {
  source : jsstring;
  target : jsstring;
  strength : Q;
  cascade : bool
}.

Inductive Drawn :=
| Line (stroke : jsstring) (strokeWidth : Q) (strokeOpacity : Q) (datum : Link)
| Circle (r : Z) (fill : jsstring) (opacity : Q) (datum : Node)
| Label (text : jsstring) (datum : Node).

Definition width : Q := 600.
Definition height : Q := 400.

Section Effect.

(** [Math.random()]: the k-th call of the effect returns [random k]. *)
Variable random : nat -> Q.

Definition node (bp : BranchPoint) (k : nat) : Node :=
  {| id := node_id bp;
     label := substring0 30 (condition bp) ++ lit "...";
     criticality := criticality_score bp;
     type := branch_type bp;
     x := random (2 * k)%nat * (width - 100) + 50;
     y := random (2 * k + 1)%nat * (height - 100) + 50 |}.

Definition nodes (branchPoints : list BranchPoint) : list Node :=
  forEach (fun bp k => [node bp k]) branchPoints.

(** The callback of [dependencies.map]: a link, or [null]. *)
Definition linkOf (ns : list Node) (dep : Dependency) : option Link :=
  let source := find (fun n => String_eq (id n) (source_node_id dep)) ns in
  let target := find (fun n => String_eq (id n) (target_node_id dep)) ns in
  match source, target with
  | Some s, Some t =>
      Some {| source := id s;
              target := id t;
              strength := dependency_strength dep;
              cascade := cascade_potential dep |}
  | _, _ => None
  end.

(** [.filter(link => link !== null)] *)
Fixpoint nonNull {A : Type} (xs : list (option A)) : list A :=
  match xs with
  | [] => []
  | Some a :: r => a :: nonNull r
  | None :: r => nonNull r
  end.

Definition links (ns : list Node) (deps : list Dependency) : list Link :=
  nonNull (map (linkOf ns) deps).

Definition drawLink (d : Link) : Drawn :=
  Line (if cascade d then "#ff4444"%string else "#999"%string)
    (strength d * 3) 0.6 d.

Definition nodeFill (d : Node) : jsstring :=
  match lookupType (type d) typeColors with
  | Some c => c
  | None => "#999"%string
  end.

Definition nodeOpacity (d : Node) : Q := 0.5 + (criticality d * 0.5).

Definition drawNode (d : Node) : Drawn :=
  Circle 20 (nodeFill d) (nodeOpacity d) d.

Definition drawLabel (d : Node) : Drawn := Label (label d) d.

(** The body of [useEffect], up to the first tick of the simulation:
    three groups (lines, circles, labels) replace the svg's children. *)
Definition effect (branchPoints : list BranchPoint)
    (deps : list Dependency) (svg : list (list Drawn)) : list (list Drawn) :=
  if (length branchPoints =? 0)%nat then svg
  else
    let ns := nodes branchPoints in
    let ls := links ns deps in
    [ map drawLink ls; map drawNode ns; map drawLabel ns ].

End Effect.

(** The legend under the svg: the colour of each swatch and its caption. *)
Definition legend : list (jsstring * jsstring) :=
  [ (lit "#667eea", lit "Procedural");
    (lit "#764ba2", lit "Substantive");
    (lit "#f093fb", lit "Evidence");
    (lit "#4facfe", lit "Timing") ].

(** *** The drag handlers

    A node as the simulation holds it: the node with its position, and the
    pinned position [fx], [fy] ([None] is [null]). Of the simulation the
    handlers touch the alpha target and the timer. *)
Record Dragged := { datum : Node; fx : option Q; fy : option Q }.

Record Simulation := { alphaTarget : Q; timerRunning : bool }.

(** [event.active], [event.x], [event.y] *)
Record DragEvent := { active : nat; pointerX : Q; pointerY : Q }.

Definition onDragStart (event : DragEvent) (sd : Simulation * Dragged)
    : Simulation * Dragged :=
  let (simulation, d) := sd in
  ((if (active event =? 0)%nat
    then {| alphaTarget := 0.3; timerRunning := true |}
    else simulation),
   {| datum := datum d; fx := Some (x (datum d)); fy := Some (y (datum d)) |}).

Definition onDrag (event : DragEvent) (sd : Simulation * Dragged)
    : Simulation * Dragged :=
  let (simulation, d) := sd in
  (simulation,
   {| datum := datum d; fx := Some (pointerX event); fy := Some (pointerY event) |}).

Definition onDragEnd (event : DragEvent) (sd : Simulation * Dragged)
    : Simulation * Dragged :=
  let (simulation, d) := sd in
  ((if (active event =? 0)%nat
    then {| alphaTarget := 0; timerRunning := timerRunning simulation |}
    else simulation),
   {| datum := datum d; fx := None; fy := None |}).

(** The drag events of a gesture that has started, in order. *)
Definition dragAll (moves : list DragEvent) (sd : Simulation * Dragged)
    : Simulation * Dragged :=
  fold_left (fun acc event => onDrag event acc) moves sd.

(** One gesture on a node: start, the moves, end. *)
Definition gesture (start : DragEvent) (moves : list DragEvent)
    (finish : DragEvent) (sd : Simulation * Dragged) : Simulation * Dragged :=
  onDragEnd finish (dragAll moves (onDragStart start sd)).

(** The cleanup the effect returns: [simulation.stop()]. *)
Definition cleanup (simulation : Simulation) : Simulation :=
  {| alphaTarget := alphaTarget simulation; timerRunning := false |}.

End LogicTreeVisualization.

(* ------------------------------------------------------------------ *)
(** ** JSON values, axios *)

#[local] Set Warnings "-register-all".

Inductive Json :=
| JNull
| JBool (b : bool)
| JNum (q : Q)
| JStr (s : jsstring)
| JArr (items : list Json)
| JObj (fields : list (jsstring * Json)).

(** [obj[key]] on the fields of an object; [None] is [undefined]. *)
Fixpoint getField (key : jsstring) (fields : list (jsstring * Json))
    : option Json :=
  match fields with
  | [] => None
  | (k, v) :: rest => if String_eq k key then Some v else getField key rest
  end.

(** [v?.key]: [undefined] on [null]; a string, a number, a boolean or an
    array has no such own property. *)
Definition optProp (key : jsstring) (v : option Json) : option Json :=
  match v with
  | Some (JObj fields) => getField key fields
  | _ => None
  end.

(** ToBoolean *)
Definition truthy (v : Json) : bool :=
  match v with
  | JNull => false
  | JBool b => b
  | JNum q => negb (Qeq_bool q 0)
  | JStr s => negb (length s =? 0)%nat
  | JArr _ | JObj _ => true
  end.

(** [a || b] *)
Definition orElse (a : option Json) (b : Json) : Json :=
  match a with
  | Some v => if truthy v then v else b
  | None => b
  end.

Record AxiosResponse (D : Type) := { status : Z; data : D }.
Arguments status {D} _.
Arguments data {D} _.

(** What a rejected [axios.post] throws: [response] is absent when the
    request never got an answer. *)
Record AxiosError := { response : option (AxiosResponse Json) }.

(* ------------------------------------------------------------------ *)
(** ** CounterfactualDemo.tsx *)

Module CounterfactualDemo.

Record State := {
  inputText : jsstring;
  analysis : option CounterfactualAnalysis;
  loading : bool;
  error : option Json;
  showAttorneyModal : bool
}.

Definition withInputText (st : State) (s : jsstring) : State :=
  {| inputText := s; analysis := analysis st; loading := loading st;
     error := error st; showAttorneyModal := showAttorneyModal st |}.

Definition withAnalysis (st : State) (a : option CounterfactualAnalysis)
    : State :=
  {| inputText := inputText st; analysis := a; loading := loading st;
     error := error st; showAttorneyModal := showAttorneyModal st |}.

Definition withLoading (st : State) (b : bool) : State :=
  {| inputText := inputText st; analysis := analysis st; loading := b;
     error := error st; showAttorneyModal := showAttorneyModal st |}.

Definition withError (st : State) (e : option Json) : State :=
  {| inputText := inputText st; analysis := analysis st;
     loading := loading st; error := e;
     showAttorneyModal := showAttorneyModal st |}.

Definition withShowAttorneyModal (st : State) (b : bool) : State :=
  {| inputText := inputText st; analysis := analysis st;
     loading := loading st; error := error st; showAttorneyModal := b |}.

(** The two messages of [handleAnalyze]. *)
Definition validationMessage : Json :=
  JStr (lit "Please enter a legal narrative to analyze").

Definition genericFailure : Json :=
  JStr (lit "Analysis failed. Please try again.").

(** What a run of a handler does that can be seen from outside, in order. *)
Inductive Event :=
| SetInputText (s : jsstring)
| SetAnalysis (a : CounterfactualAnalysis)
| SetLoading (b : bool)
| SetError (e : option Json)
| SetShowAttorneyModal (b : bool)
| Post (url : jsstring) (body : Json)
| ConsoleError (e : AxiosError).

Definition isPost (e : Event) : bool :=
  match e with Post _ _ => true | _ => false end.

Definition isSetAnalysis (e : Event) : bool :=
  match e with SetAnalysis _ => true | _ => false end.

Definition isSetLoading (b : bool) (e : Event) : bool :=
  match e with SetLoading b' => Bool.eqb b b' | _ => false end.

Section Handlers.

(** The remote service: its state, and what each endpoint answers. The
    analysis endpoint is typed by the interface the handler assigns its
    answer to. *)
Context {World : Type}.
Variable extract : Json -> World -> (AxiosError + AxiosResponse Json) * World.
Variable analyze :
  Json -> World -> (AxiosError + AxiosResponse CounterfactualAnalysis) * World.

(** [process.env.REACT_APP_API_URL] *)
Variable REACT_APP_API_URL : option jsstring.

Definition API_URL : jsstring :=
  match REACT_APP_API_URL with
  | Some u => if (length u =? 0)%nat then lit "http://localhost:8000" else u
  | None => lit "http://localhost:8000"
  end.

Definition extractUrl : jsstring := API_URL ++ lit "/api/cir/extract".

Definition analyzeUrl : jsstring :=
  API_URL ++ lit "/api/counterfactual/analyze".

(** *** The monad of a handler *)

Record Run := { ui : State; world : World; trace : list Event }.

Inductive Outcome (A : Type) :=
| Returned (a : A)
| Thrown (e : AxiosError).
Arguments Returned {A} a.
Arguments Thrown {A} e.

Definition M (A : Type) := Run -> Outcome A * Run.

Definition ret {A : Type} (a : A) : M A := fun r => (Returned a, r).

Definition bind {A B : Type} (m : M A) (k : A -> M B) : M B :=
  fun r =>
    match m r with
    | (Returned a, r') => k a r'
    | (Thrown e, r') => (Thrown e, r')
    end.

Definition emit (e : Event) (f : State -> State) : M unit :=
  fun r => (Returned tt,
            {| ui := f (ui r); world := world r; trace := trace r ++ [e] |}).

Definition tryCatchFinally {A : Type} (body : M A)
    (handler : AxiosError -> M A) (finalizer : M unit) : M A :=
  fun r =>
    let (o, r1) :=
      match body r with
      | (Returned a, r') => (Returned a, r')
      | (Thrown e, r') => handler e r'
      end in
    match finalizer r1 with
    | (Returned _, r2) => (o, r2)
    | (Thrown e, r2) => (Thrown e, r2)
    end.

Local Notation "x <- m ;; k" := (bind m (fun x => k))
  (at level 61, m at next level, right associativity).
Local Notation "m ;;; k" := (bind m (fun _ => k))
  (at level 61, right associativity).

(** *** State setters *)

Definition setInputText (s : jsstring) : M unit :=
  emit (SetInputText s) (fun st => withInputText st s).

Definition setAnalysis (a : CounterfactualAnalysis) : M unit :=
  emit (SetAnalysis a) (fun st => withAnalysis st (Some a)).

Definition setLoading (b : bool) : M unit :=
  emit (SetLoading b) (fun st => withLoading st b).

Definition setError (e : option Json) : M unit :=
  emit (SetError e) (fun st => withError st e).

Definition setShowAttorneyModal (b : bool) : M unit :=
  emit (SetShowAttorneyModal b) (fun st => withShowAttorneyModal st b).

Definition console_error (e : AxiosError) : M unit :=
  emit (ConsoleError e) (fun st => st).

(** [await axios.post(url, body)]: the request is seen, the service
    answers, and a rejection is thrown. *)
Definition axios_post {D : Type}
    (endpoint : Json -> World -> (AxiosError + AxiosResponse D) * World)
    (url : jsstring) (body : Json) : M (AxiosResponse D) :=
  fun r =>
    let (answer, w') := endpoint body (world r) in
    let r' := {| ui := ui r; world := w'; trace := trace r ++ [Post url body] |} in
    match answer with
    | inr resp => (Returned resp, r')
    | inl err => (Thrown err, r')
    end.

(** *** handleAnalyze *)

Definition extractBody (narrative : jsstring) : Json :=
  JObj [ (lit "narrative", JStr narrative);
         (lit "options",
          JObj [ (lit "extract_legal_implications", JBool true);
                 (lit "include_confidence", JBool true) ]) ].

Definition analyzeBody (cir_graph : Json) : Json :=
  JObj [ (lit "cir_graph", cir_graph);
         (lit "options",
          JObj [ (lit "include_visualizations", JBool true);
                 (lit "max_branch_points", JNum 10);
                 (lit "max_cascades", JNum 5);
                 (lit "complexity_threshold", JNum 0.7) ]) ].

Definition errorDetail (err : AxiosError) : option Json :=
  match response err with
  | Some resp => optProp (lit "detail") (Some (data resp))
  | None => None
  end.

(** The handler closes over the [inputText] of the render it belongs to. *)
Definition handleAnalyze (inputText : jsstring) : M unit :=
  if (length (trim inputText) =? 0)%nat then
    setError (Some validationMessage)
  else
    setLoading true ;;;
    setError None ;;;
    tryCatchFinally
      (cirResponse <-
         axios_post extract extractUrl (extractBody inputText) ;;
       counterfactualResponse <-
         axios_post analyze analyzeUrl (analyzeBody (data cirResponse)) ;;
       let result := data counterfactualResponse in
       setAnalysis result ;;;
       if triggered (attorney_referral result)
       then setShowAttorneyModal true
       else ret tt)
      (fun err =>
         setError (Some (orElse (errorDetail err) genericFailure)) ;;;
         console_error err)
      (setLoading false).

Definition sampleNarrative : jsstring :=
  lit "I was scheduled for a court hearing on March 15, 2024. I received the notice by mail on February 28. However, I was hospitalized for emergency surgery on March 10 and could not attend the hearing. I called the court clerk on March 12 to inform them, but they said I needed to file a formal motion to continue. I was unable to file the motion because I was in the hospital until March 18. When I was released, I discovered the court had entered a default judgment against me on March 16.".

Definition loadSampleCase : M unit := setInputText sampleNarrative.

(** A click on the analyze button of the render of [st]. *)
Definition submit (st : State) (w : World) : Outcome unit * Run :=
  handleAnalyze (inputText st) {| ui := st; world := w; trace := [] |}.

End Handlers.

Arguments Returned {A} a.
Arguments Thrown {A} e.
Arguments Run World : clear implicits.

(** [{showAttorneyModal && analysis && <AttorneyReferralModal .../>}] *)
Definition modalVisible (st : State) : bool :=
  showAttorneyModal st &&
  match analysis st with Some _ => true | None => false end.

(** [onClose] of the modal. *)
Definition closeModal (st : State) : State := withShowAttorneyModal st false.

(** The analyze button is disabled while loading or on blank input. *)
Definition analyzeDisabled (st : State) : bool :=
  loading st || (length (trim (inputText st)) =? 0)%nat.

Definition withBranchPoints (a : CounterfactualAnalysis)
    (bps : list BranchPoint) : CounterfactualAnalysis :=
  {| analysis_id := analysis_id a;
     document_id := document_id a;
     branch_points := bps;
     dependencies := dependencies a;
     cascades := cascades a;
     complexity_score := complexity_score a;
     attorney_referral := attorney_referral a;
     educational_disclaimer := educational_disclaimer a |}.

(** The results section once rendered and committed. The three components
    receive the arrays of the one [analysis] object held in the state:
    [BranchPointHighlighter] renders first, and the effects of the two
    drawings run after the commit, on the arrays as that render left
    them. *)
Record Results := {
  held : CounterfactualAnalysis;
  branchList : BranchPointHighlighter.Jsx;
  logicTree : list (list LogicTreeVisualization.Drawn);
  heatmap : list RiskHeatmap.Drawn
}.

Definition renderResults (random : nat -> Q) (a : CounterfactualAnalysis)
    : Results :=
  let (branchPoints', jsx) := BranchPointHighlighter.render (branch_points a) in
  let a' := withBranchPoints a branchPoints' in
  {| held := a';
     branchList := jsx;
     logicTree :=
       LogicTreeVisualization.effect random (branch_points a')
         (dependencies a') [];
     heatmap := RiskHeatmap.effect (branch_points a') (cascades a') [] |}.

(** *** The cascades panel *)

Inductive ChainPart :=
| ChainNode (text : jsstring)
| ChainArrow.

(** [amplification_chain.map((node, idx) => ...)]: the node, and an arrow
    when [idx < length - 1]. *)
Definition cascadeChain (chain : list jsstring) : list ChainPart :=
  forEach
    (fun node idx =>
       ChainNode node
       :: (if (Z.of_nat idx <? Z.of_nat (length chain) - 1)%Z
           then [ChainArrow] else []))
    chain.

(** *** The component as a transition system

    The state the component mounts with, and what the user can do to it at
    rest: edit the text, load the sample, click the analyze button when it
    is enabled, and close the modal when it is shown. A submission runs to
    its end before the next event. *)
Definition mounted : State :=
  {| inputText := []; analysis := None; loading := false; error := None;
     showAttorneyModal := false |}.

Section App.

Context {World : Type}.
Variable extract : Json -> World -> (AxiosError + AxiosResponse Json) * World.
Variable analyze :
  Json -> World -> (AxiosError + AxiosResponse CounterfactualAnalysis) * World.
Variable REACT_APP_API_URL : option jsstring.

Inductive Step : State * World -> State * World -> Prop :=
| StepChange (st : State) (w : World) (text : jsstring) :
    Step (st, w) (withInputText st text, w)
| StepLoadSample (st : State) (w : World) :
    Step (st, w) (withInputText st sampleNarrative, w)
| StepAnalyze (st : State) (w : World) :
    analyzeDisabled st = false ->
    Step (st, w)
      (ui (snd (submit extract analyze REACT_APP_API_URL st w)),
       world (snd (submit extract analyze REACT_APP_API_URL st w)))
| StepClose (st : State) (w : World) :
    modalVisible st = true ->
    Step (st, w) (closeModal st, w).

Inductive Reachable (w0 : World) : State * World -> Prop :=
| ReachMounted : Reachable w0 (mounted, w0)
| ReachStep (a b : State * World) :
    Reachable w0 a -> Step a b -> Reachable w0 b.

End App.

End CounterfactualDemo.

(* ------------------------------------------------------------------ *)
(** ** AttorneyReferralModal.tsx *)

Module AttorneyReferralModal.

(** The elements of the modal a click can land on: the overlay, the content
    box inside it, and inside the content the two buttons, the referral
    links and everything else. *)
Inductive Element :=
| Overlay
| Content
| CloseButton
| PrimaryButton
| ReferralLink (idx : nat)
| OtherContent.

Definition parent (e : Element) : option Element :=
  match e with
  | Overlay => None
  | Content => Some Overlay
  | CloseButton | PrimaryButton | ReferralLink _ | OtherContent => Some Content
  end.

(** What the [onClick] of an element does, when it has one. *)
Inductive Handler :=
| CallOnClose
| StopPropagation.

Definition onClick (e : Element) : option Handler :=
  match e with
  | Overlay => Some CallOnClose
  | Content => Some StopPropagation
  | CloseButton => Some CallOnClose
  | PrimaryButton => Some CallOnClose
  | ReferralLink _ | OtherContent => None
  end.

(** The elements a click bubbles through, from its target outwards. The
    tree is three levels deep. *)
Definition bubblePath (target : Element) : list Element :=
  target ::
  match parent target with
  | None => []
  | Some p =>
      p :: match parent p with
           | None => []
           | Some g => [g]
           end
  end.

(** The calls of [onClose] a click makes: the handlers run along the path
    until one stops the propagation. *)
Fixpoint onCloseCalls (path : list Element) : nat :=
  match path with
  | [] => 0
  | e :: outer =>
      match onClick e with
      | Some CallOnClose => S (onCloseCalls outer)
      | Some StopPropagation => 0
      | None => onCloseCalls outer
      end
  end.

(** A click on the modal as the orchestrator renders it, with
    [onClose = () => setShowAttorneyModal(false)]. *)
Definition click (target : Element) (st : CounterfactualDemo.State)
    : CounterfactualDemo.State :=
  Nat.iter (onCloseCalls (bubblePath target)) CounterfactualDemo.closeModal st.

(** The links section: absent when there is no link, else one anchor per
    link, its [href] and its text both the link. *)
Definition linksSection (a : CounterfactualAnalysis)
    : option (list (jsstring * jsstring)) :=
  let links := referral_links (attorney_referral a) in
  if (0 <? length links)%nat then Some (map (fun link => (link, link)) links)
  else None.

End AttorneyReferralModal.

(* ------------------------------------------------------------------ *)
(** ** Statements taken from the specification, to compare the code with *)

(** "the maximum severity among cascades whose initiating branch equals this
    branch point's id, or 0 if none" *)
Definition initiatedBy (cascades : list Cascade) (bp : BranchPoint)
    (c : Cascade) : Prop :=
  In c cascades /\ initiating_branch_id c = branch_id bp.

Definition spec_maxCascadeSeverity (cascades : list Cascade) (bp : BranchPoint)
    (m : Q) : Prop :=
  ((forall c, ~ initiatedBy cascades bp c) /\ m = 0)
  \/ ((exists c, initiatedBy cascades bp c /\ severity_score c = m)
      /\ forall c, initiatedBy cascades bp c -> severity_score c <= m).

(** "non-increasing order of criticality": [a] may stand in front of [b]. *)
Definition notBelow (a b : BranchPoint) : Prop :=
  criticality_score b <= criticality_score a.

(** The branch points of one score, to speak of "ties". *)
Definition hasScore (s : Q) (bp : BranchPoint) : bool :=
  Qeq_bool (criticality_score bp) s.

(** The branch points of one type. *)
Definition hasType (t : BranchType) (bp : BranchPoint) : bool :=
  BranchType_eqb t (branch_type bp).

(** "matches some branch point's node_id" *)
Definition resolves (branchPoints : list BranchPoint) (nid : jsstring) : Prop :=
  exists bp, In bp branchPoints /\ node_id bp = nid.

(** "either network call fails": the extraction is rejected, or it is
    answered and the analysis of its answer is rejected; [err] is what the
    rejected call throws and [w'] the service afterwards. *)
Definition callFails {World : Type}
    (extract : Json -> World -> (AxiosError + AxiosResponse Json) * World)
    (analyze : Json -> World ->
               (AxiosError + AxiosResponse CounterfactualAnalysis) * World)
    (narrative : jsstring) (w : World) (err : AxiosError) (w' : World) : Prop :=
  extract (CounterfactualDemo.extractBody narrative) w = (inl err, w')
  \/ exists cir w1,
       extract (CounterfactualDemo.extractBody narrative) w = (inr cir, w1)
       /\ analyze (CounterfactualDemo.analyzeBody (data cir)) w1 = (inl err, w').

(** "empty or whitespace-only" *)
Definition blank (s : jsstring) : Prop :=
  Forall (fun c => isWhiteSpace c = true) s.

(* ------------------------------------------------------------------ *)
(** ** Sample data *)

Module Samples.

Definition bp (bid nid : string) (t : BranchType) (score : Q) : BranchPoint :=
  {| branch_id := bid; node_id := nid; branch_type := t;
     condition := "Notice was received late"%string;
     alternatives := [ ("File a motion to continue"%string : jsstring) ];
     criticality_score := score |}.

Definition cascadeOf (cid bid : string) (score : Q) : Cascade :=
  {| cascade_id := cid; initiating_branch_id := bid;
     amplification_chain := [ ("missed hearing"%string : jsstring);
                              ("default judgment"%string : jsstring) ];
     severity_score := score; preventable := true |}.

Definition bpLow : BranchPoint := bp "b1" "n1" procedural 0.2.
Definition bpHigh : BranchPoint := bp "b2" "n2" timing 0.9.
Definition bpMid : BranchPoint := bp "b3" "n3" evidence 0.5.

Definition someCascades : list Cascade :=
  [ cascadeOf "c1" "b3" 0.4; cascadeOf "c2" "b2" 0.3; cascadeOf "c3" "b3" 1.0 ].

Definition referral (t : bool) : AttorneyReferral :=
  {| triggered := t;
     reason := if t then Some ("Complexity above threshold"%string : jsstring)
               else None;
     referral_links := [] |}.

Definition analysisOf (aid : string) (bps : list BranchPoint) (t : bool)
    : CounterfactualAnalysis :=
  {| analysis_id := aid;
     document_id := "doc-1"%string;
     branch_points := bps;
     dependencies := [];
     cascades := someCascades;
     complexity_score := if t then 0.8 else 0.3;
     attorney_referral := referral t;
     educational_disclaimer := "For educational purposes only."%string |}.

Definition cirGraph : Json :=
  JObj [ (lit "nodes", JArr [ JStr (lit "hearing"); JStr (lit "surgery") ]);
         (lit "edges", JArr []) ].

(** A service that counts the requests it has answered. Its analysis of the
    first narrative triggers the referral; later ones do not. *)
Definition extractOk (body : Json) (served : nat)
    : (AxiosError + AxiosResponse Json) * nat :=
  (inr {| status := 200; data := cirGraph |}, S served).

Definition analyzeOk (body : Json) (served : nat)
    : (AxiosError + AxiosResponse CounterfactualAnalysis) * nat :=
  (inr {| status := 200;
          data := analysisOf "a" [bpLow; bpHigh] (served <=? 1)%nat |},
   S served).

(** A service whose analysis rejects the graph with a message. *)
Definition analyzeRejects (body : Json) (served : nat)
    : (AxiosError + AxiosResponse CounterfactualAnalysis) * nat :=
  (inl {| response :=
            Some {| status := 422;
                    data := JObj [ (lit "detail",
                                    JStr (lit "Narrative too short")) ] |} |},
   S served).

(** A service that cannot be reached. *)
Definition extractUnreachable (body : Json) (served : nat)
    : (AxiosError + AxiosResponse Json) * nat :=
  (inl {| response := None |}, served).

Definition initialState : CounterfactualDemo.State :=
  {| CounterfactualDemo.inputText := [];
     CounterfactualDemo.analysis := None;
     CounterfactualDemo.loading := false;
     CounterfactualDemo.error := None;
     CounterfactualDemo.showAttorneyModal := false |}.

(** The state once the sample narrative has been loaded. *)
Definition sampleLoaded : CounterfactualDemo.State :=
  CounterfactualDemo.withInputText initialState
    CounterfactualDemo.sampleNarrative.

(** The state with only blanks typed: a space, a tab, a line feed and a
    no-break space. *)
Definition blanksTyped : CounterfactualDemo.State :=
  CounterfactualDemo.withInputText initialState [32; 9; 10; 160]%N.

End Samples.

(* ------------------------------------------------------------------ *)
(** * Facts *)

(** ** Strings *)

Lemma String_eq_true_iff (a b : jsstring) : String_eq a b = true <-> a = b.
Proof.
  revert b; induction a as [|x a IH]; intros [|y b]; simpl;
    try (split; [discriminate | discriminate]); try tauto.
  rewrite andb_true_iff, N.eqb_eq, IH.
  split; [intros [-> ->]; reflexivity | intros H; inversion H; auto].
Qed.

Lemma String_eq_refl (a : jsstring) : String_eq a a = true.
Proof. apply String_eq_true_iff; reflexivity. Qed.

(** ** RiskHeatmap *)

Section RiskHeatmapFacts.

Import RiskHeatmap.

Lemma relatedCascades_spec cascades bp c :
  In c (relatedCascades cascades bp) <-> initiatedBy cascades bp c.
Proof.
  unfold relatedCascades, initiatedBy.
  rewrite filter_In, String_eq_true_iff; reflexivity.
Qed.

(** [Math.max] returns one of its arguments, and none of them exceeds it. *)
Lemma Math_max_In (xs : list Q) : forall x, In (Math_max x xs) (x :: xs).
Proof.
  unfold Math_max.
  induction xs as [|y ys IH]; intros x; simpl; [auto|].
  destruct (IH (Qmax x y)) as [H|H]; [|auto].
  rewrite <- H.
  unfold Qmax, GenericMinMax.gmax; destruct (x ?= y); auto.
Qed.

Lemma Math_max_ge_first (xs : list Q) : forall x, x <= Math_max x xs.
Proof.
  unfold Math_max.
  induction xs as [|y ys IH]; intros x; simpl; [apply Qle_refl|].
  eapply Qle_trans; [apply Q.le_max_l | apply IH].
Qed.

Lemma Math_max_upper (xs : list Q) :
  forall x z, In z (x :: xs) -> z <= Math_max x xs.
Proof.
  induction xs as [|y ys IH]; intros x z [<-|Hin].
  - apply Qle_refl.
  - destruct Hin.
  - apply Math_max_ge_first.
  - unfold Math_max; simpl.
    destruct Hin as [<-|Hin].
    + eapply Qle_trans; [apply Q.le_max_r | apply Math_max_ge_first].
    + apply (IH (Qmax x y) z); right; exact Hin.
Qed.

Lemma maxSeverity_spec cascades bp :
  spec_maxCascadeSeverity cascades bp
    (maxSeverity (relatedCascades cascades bp)).
Proof.
  unfold spec_maxCascadeSeverity, maxSeverity.
  destruct (relatedCascades cascades bp) as [|c0 rest] eqn:E.
  - left; split; [|reflexivity].
    intros c Hc; apply relatedCascades_spec in Hc; rewrite E in Hc; exact Hc.
  - right; simpl; split.
    + destruct (Math_max_In (map severity_score rest) (severity_score c0))
        as [H|H].
      * exists c0; split; [|exact H].
        apply relatedCascades_spec; rewrite E; left; reflexivity.
      * apply in_map_iff in H; destruct H as [c [Hs Hin]].
        exists c; split; [|exact Hs].
        apply relatedCascades_spec; rewrite E; right; exact Hin.
    + intros c Hc; apply relatedCascades_spec in Hc; rewrite E in Hc.
      apply Math_max_upper.
      change (In (severity_score c) (map severity_score (c0 :: rest))).
      apply in_map; exact Hc.
Qed.

Lemma BranchType_eqb_eq (a b : BranchType) : BranchType_eqb a b = true <-> a = b.
Proof. destruct a, b; simpl; split; congruence. Qed.

(** Every step of [forEach] leaves what it appends in the result. *)
Lemma forEach_from_incl {A B : Type} (f : A -> nat -> list B) (xs : list A) :
  forall (k : nat) (x : A),
    In x xs -> exists i, incl (f x i) (forEach_from k f xs).
Proof.
  induction xs as [|x0 xs IH]; intros k x; simpl; [tauto|].
  intros [<-|Hin].
  - exists k; apply incl_appl, incl_refl.
  - destruct (IH (S k) x Hin) as [i Hi]; exists i.
    apply incl_appr; exact Hi.
Qed.

(** Pushing an item puts it in the group of its type and loses none. *)
Lemma push_group_adds (groups : list (BranchType * list RiskItem))
    (it : RiskItem) :
  exists g, In g (push_group groups it) /\ In it (snd g) /\ fst g = type it.
Proof.
  induction groups as [|[t items] rest IH]; simpl.
  - exists (type it, [it]); simpl; auto.
  - destruct (BranchType_eqb t (type it)) eqn:E.
    + apply BranchType_eqb_eq in E.
      exists (t, items ++ [it]); simpl; repeat split; auto.
      apply in_or_app; right; left; reflexivity.
    + destruct IH as [g [Hg Hit]]; exists g; simpl; auto.
Qed.

Lemma push_group_keeps (groups : list (BranchType * list RiskItem))
    (it item : RiskItem) :
  (exists g, In g groups /\ In item (snd g) /\ fst g = type item) ->
  exists g, In g (push_group groups it) /\ In item (snd g) /\ fst g = type item.
Proof.
  induction groups as [|[t items] rest IH]; intros [g [Hg [Hitem Ht]]];
    simpl in Hg; [tauto|].
  simpl; destruct (BranchType_eqb t (type it)) eqn:E; destruct Hg as [<-|Hg].
  - exists (t, items ++ [it]); simpl in *; repeat split; auto.
    apply in_or_app; left; exact Hitem.
  - exists g; simpl; auto.
  - exists (t, items); simpl in *; auto.
  - destruct IH as [g' [Hg' H']]; [exists g; auto|].
    exists g'; simpl; auto.
Qed.

Lemma typeGroups_complete (data : list RiskItem) :
  forall (groups : list (BranchType * list RiskItem)) (item : RiskItem),
    In item data
    \/ (exists g, In g groups /\ In item (snd g) /\ fst g = type item) ->
    exists g, In g (fold_left push_group data groups)
              /\ In item (snd g) /\ fst g = type item.
Proof.
  induction data as [|it data IH]; intros groups item H; simpl.
  - destruct H as [[]|H]; exact H.
  - apply IH; destruct H as [[<-|Hin]|H].
    + right; apply push_group_adds.
    + left; exact Hin.
    + right; apply push_group_keeps; exact H.
Qed.

(** Every item of [riskData] has its cell and its value text in the
    drawing. *)
Lemma riskData_drawn (branchPoints : list BranchPoint)
    (cascades : list Cascade) (svg : list Drawn) (item : RiskItem) :
  In item (riskData branchPoints cascades) ->
  exists x y : Z,
    In (CellRect x y (risk item) (type item) (risk item) (cascadeCount item))
       (effect branchPoints cascades svg)
    /\ In (RiskText (x + cellSize / 2)%Z (y + cellSize / 2)%Z
             (if Qlt_le_dec 0.5 (risk item) then lit "white" else lit "#333")
             (risk item))
          (effect branchPoints cascades svg).
Proof.
  intros Hin.
  unfold effect.
  destruct branchPoints as [|bp0 rest]; [destruct Hin|].
  cbn [length Nat.eqb].
  destruct (typeGroups_complete (riskData (bp0 :: rest) cascades) [] item
              (or_introl Hin)) as [[t items] [Hg [Hitem Ht]]].
  simpl in Hitem, Ht; subst t.
  destruct (forEach_from_incl drawRow _ 0 _ Hg) as [typeIdx Hrow].
  destruct (forEach_from_incl (drawItem (type item) typeIdx) _ 0 _ Hitem)
    as [itemIdx Hcell].
  exists (padding + Z.of_nat itemIdx * cellSize)%Z,
         (padding + Z.of_nat typeIdx * cellSize)%Z.
  split; apply in_or_app; left; apply Hrow; unfold drawRow;
    apply in_or_app; left; apply Hcell; simpl; auto.
Qed.

(** C1. For every branch point of the input, the item that [riskData]
    derives for it has [risk] equal to
    [0.6 * criticality_score + 0.4 * m], where [m] is the greatest
    [severity_score] among the cascades whose [initiating_branch_id] is the
    branch point's [branch_id], and 0 when there is none; with no such
    cascade the risk is [criticality_score * 0.6]. That risk is the one the
    item's cell is coloured by and shows. Numbers are exact rationals and
    [==] is their equality. *)
Theorem combinedRisk_formula :
  forall (branchPoints : list BranchPoint) (cascades : list Cascade)
         (i : nat) (bp : BranchPoint),
    nth_error branchPoints i = Some bp ->
    exists (item : RiskItem) (m : Q),
      nth_error (riskData branchPoints cascades) i = Some item
      /\ id item = branch_id bp
      /\ spec_maxCascadeSeverity cascades bp m
      /\ risk item == 0.6 * criticality_score bp + 0.4 * m
      /\ ((forall c, ~ initiatedBy cascades bp c) ->
          risk item == criticality_score bp * 0.6)
      /\ (forall svg, exists x y : Z,
            In (CellRect x y (risk item) (branch_type bp) (risk item)
                  (cascadeCount item))
               (effect branchPoints cascades svg)).
Proof.
  intros branchPoints cascades i bp Hnth.
  exists (riskItem cascades bp), (maxSeverity (relatedCascades cascades bp)).
  assert (Hitem : nth_error (riskData branchPoints cascades) i
                  = Some (riskItem cascades bp))
    by (unfold riskData; apply map_nth_error; exact Hnth).
  split; [exact Hitem|].
  split; [reflexivity|].
  split; [apply maxSeverity_spec|].
  split; [simpl; ring|].
  split.
  - intros Hnone; simpl.
    destruct (relatedCascades cascades bp) as [|c rest] eqn:E.
    + unfold maxSeverity; simpl; ring.
    + exfalso; apply (Hnone c), relatedCascades_spec; rewrite E; left; reflexivity.
  - intros svg.
    destruct (riskData_drawn branchPoints cascades svg (riskItem cascades bp)
                (nth_error_In _ _ Hitem)) as [x [y [Hcell _]]].
    exists x, y; exact Hcell.
Qed.

Lemma combinedRisk_formula_witness :
  exists (item : RiskItem) (m : Q),
    nth_error (riskData [Samples.bpLow; Samples.bpMid] Samples.someCascades) 1
      = Some item
    /\ id item = branch_id Samples.bpMid
    /\ spec_maxCascadeSeverity Samples.someCascades Samples.bpMid m
    /\ risk item == 0.6 * criticality_score Samples.bpMid + 0.4 * m
    /\ ((forall c, ~ initiatedBy Samples.someCascades Samples.bpMid c) ->
        risk item == criticality_score Samples.bpMid * 0.6)
    /\ (forall svg, exists x y : Z,
          In (CellRect x y (risk item) (branch_type Samples.bpMid) (risk item)
                (cascadeCount item))
             (effect [Samples.bpLow; Samples.bpMid] Samples.someCascades svg)).
Proof.
  apply (combinedRisk_formula [Samples.bpLow; Samples.bpMid]
           Samples.someCascades 1 Samples.bpMid).
  reflexivity.
Defined.



End RiskHeatmapFacts.

(** ** Array.prototype.sort with the comparator of BranchPointHighlighter *)

Section SortFacts.

Import BranchPointHighlighter.

Lemma byCriticalityDesc_pos a b :
  0 < byCriticalityDesc a b <-> criticality_score a < criticality_score b.
Proof.
  unfold byCriticalityDesc.
  rewrite <- (Qlt_minus_iff (criticality_score a) (criticality_score b)).
  reflexivity.
Qed.

Lemma sort_insert_perm (a : BranchPoint) (l : list BranchPoint) :
  Permutation (a :: l) (sort_insert byCriticalityDesc a l).
Proof.
  induction l as [|b l IH]; simpl; [reflexivity|].
  destruct (Qlt_le_dec 0 (byCriticalityDesc a b)); [|reflexivity].
  rewrite perm_swap; apply perm_skip; exact IH.
Qed.

Lemma Array_sort_perm (l : list BranchPoint) :
  Permutation l (Array_sort byCriticalityDesc l).
Proof.
  induction l as [|a l IH]; simpl; [reflexivity|].
  rewrite <- sort_insert_perm; apply perm_skip; exact IH.
Qed.

Lemma sort_insert_sorted (a : BranchPoint) (l : list BranchPoint) :
  StronglySorted notBelow l ->
  StronglySorted notBelow (sort_insert byCriticalityDesc a l).
Proof.
  induction 1 as [|b l Hs IH Hb]; simpl.
  - constructor; [constructor | constructor].
  - destruct (Qlt_le_dec 0 (byCriticalityDesc a b)) as [Hlt|Hle].
    + constructor; [exact IH|].
      apply byCriticalityDesc_pos in Hlt.
      eapply Permutation_Forall; [apply sort_insert_perm|].
      constructor; [apply Qlt_le_weak; exact Hlt | exact Hb].
    + assert (Hab : notBelow a b).
      { unfold notBelow.
        destruct (Qlt_le_dec (criticality_score a) (criticality_score b))
          as [H|H]; [|exact H].
        apply byCriticalityDesc_pos in H.
        exfalso; exact (Qlt_not_le _ _ H Hle). }
      constructor; [constructor; assumption|].
      constructor; [exact Hab|].
      eapply Forall_impl; [|exact Hb].
      intros c Hc; unfold notBelow in *; eapply Qle_trans; eassumption.
Qed.

Lemma Array_sort_sorted (l : list BranchPoint) :
  StronglySorted notBelow (Array_sort byCriticalityDesc l).
Proof.
  induction l as [|a l IH]; simpl; [constructor|].
  apply sort_insert_sorted; exact IH.
Qed.

(** Insertion never carries an element over one of the same score. *)
Lemma sort_insert_stable (s : Q) (a : BranchPoint) (l : list BranchPoint) :
  filter (hasScore s) (sort_insert byCriticalityDesc a l)
  = filter (hasScore s) (a :: l).
Proof.
  induction l as [|b l IH]; [reflexivity|].
  cbn [sort_insert].
  destruct (Qlt_le_dec 0 (byCriticalityDesc a b)) as [Hlt|Hle]; [|reflexivity].
  cbn [filter] in *; rewrite IH.
  destruct (hasScore s a) eqn:Ha, (hasScore s b) eqn:Hb; try reflexivity.
  exfalso.
  apply byCriticalityDesc_pos in Hlt.
  unfold hasScore in Ha, Hb.
  apply Qeq_bool_iff in Ha; apply Qeq_bool_iff in Hb.
  rewrite Ha, Hb in Hlt; exact (Qlt_irrefl _ Hlt).
Qed.

Lemma Array_sort_stable (s : Q) (l : list BranchPoint) :
  filter (hasScore s) (Array_sort byCriticalityDesc l)
  = filter (hasScore s) l.
Proof.
  induction l as [|a l IH]; [reflexivity|].
  cbn [Array_sort]; rewrite sort_insert_stable.
  cbn [filter]; rewrite IH; reflexivity.
Qed.

(** A list sorted by non-increasing score is determined by the order of
    the branch points within each score: whatever stable algorithm an engine
    runs for [sort], it ends with the list [Array_sort] computes. *)
Lemma hasScore_own (bp : BranchPoint) : hasScore (criticality_score bp) bp = true.
Proof. unfold hasScore; apply Qeq_bool_iff; reflexivity. Qed.

Lemma filter_head_In {A : Type} (p : A -> bool) (l r : list A) (a : A) :
  filter p l = a :: r -> In a l.
Proof.
  intros H.
  assert (Hin : In a (filter p l)) by (rewrite H; left; reflexivity).
  apply filter_In in Hin; apply Hin.
Qed.

Lemma sorted_head_max (a x : BranchPoint) (l : list BranchPoint) :
  StronglySorted notBelow (a :: l) -> In x (a :: l) ->
  criticality_score x <= criticality_score a.
Proof.
  intros Hs [<-|Hin]; [apply Qle_refl|].
  apply StronglySorted_inv in Hs; destruct Hs as [_ Hall].
  rewrite Forall_forall in Hall; exact (Hall x Hin).
Qed.

Lemma stable_sorted_unique (l1 : list BranchPoint) :
  forall l2 : list BranchPoint,
    StronglySorted notBelow l1 ->
    StronglySorted notBelow l2 ->
    (forall s, filter (hasScore s) l1 = filter (hasScore s) l2) ->
    l1 = l2.
Proof.
  induction l1 as [|a l1 IH]; intros [|b l2] Hs1 Hs2 Hf.
  - reflexivity.
  - specialize (Hf (criticality_score b)); cbn [filter] in Hf.
    rewrite hasScore_own in Hf; discriminate.
  - specialize (Hf (criticality_score a)); cbn [filter] in Hf.
    rewrite hasScore_own in Hf; discriminate.
  - assert (Hab : a = b).
    { pose proof (Hf (criticality_score a)) as Ha.
      pose proof (Hf (criticality_score b)) as Hb.
      cbn [filter] in Ha, Hb; rewrite hasScore_own in Ha, Hb.
      assert (Hle1 : criticality_score a <= criticality_score b).
      { apply (sorted_head_max b a l2 Hs2).
        eapply (filter_head_In (hasScore (criticality_score a))).
        cbn [filter]; symmetry; exact Ha. }
      assert (Hle2 : criticality_score b <= criticality_score a).
      { apply (sorted_head_max a b l1 Hs1).
        eapply (filter_head_In (hasScore (criticality_score b))).
        cbn [filter]; exact Hb. }
      assert (Hbs : hasScore (criticality_score a) b = true).
      { unfold hasScore; apply Qeq_bool_iff, Qle_antisym; assumption. }
      rewrite Hbs in Ha; congruence. }
    subst b; f_equal.
    apply IH.
    + apply StronglySorted_inv in Hs1; apply Hs1.
    + apply StronglySorted_inv in Hs2; apply Hs2.
    + intros s; specialize (Hf s); cbn [filter] in Hf.
      destruct (hasScore s a); congruence.
Qed.

Lemma Array_sort_canonical (l sorted : list BranchPoint) :
  StronglySorted notBelow sorted ->
  (forall s, filter (hasScore s) sorted = filter (hasScore s) l) ->
  sorted = Array_sort byCriticalityDesc l.
Proof.
  intros Hs Hf; apply stable_sorted_unique.
  - exact Hs.
  - apply Array_sort_sorted.
  - intros s; rewrite Array_sort_stable; apply Hf.
Qed.

(** An array that arrives in order is left as it is, and only such a one. *)
Lemma Array_sort_fixed_iff (l : list BranchPoint) :
  Array_sort byCriticalityDesc l = l <-> StronglySorted notBelow l.
Proof.
  split.
  - intros H; rewrite <- H; apply Array_sort_sorted.
  - intros H; symmetry; apply Array_sort_canonical; [exact H | reflexivity].
Qed.

(** C7. For every input list the items that [BranchPointHighlighter]
    renders are those of a rearrangement of the input in which no branch
    point stands in front of one with a greater [criticality_score], and in
    which the branch points of any one score keep the order they had in the
    input; for the empty list it renders the "no branch points" message
    and no list. *)
Theorem highlighter_sorted_stable :
  forall (branchPoints : list BranchPoint),
    exists sorted : list BranchPoint,
      Permutation branchPoints sorted
      /\ StronglySorted notBelow sorted
      /\ (forall s, filter (hasScore s) sorted = filter (hasScore s) branchPoints)
      /\ snd (render branchPoints)
         = match branchPoints with
           | [] => NoBranches
                     (lit "No branch points detected in this narrative.")
           | _ :: _ => BranchItems (map item sorted)
           end.
Proof.
  intros branchPoints.
  exists (Array_sort byCriticalityDesc branchPoints).
  split; [apply Array_sort_perm|].
  split; [apply Array_sort_sorted|].
  split; [intros s; apply Array_sort_stable|].
  destruct branchPoints; reflexivity.
Qed.

(** What the render leaves in the caller's array. *)
Lemma render_array (branchPoints : list BranchPoint) :
  fst (render branchPoints) = Array_sort byCriticalityDesc branchPoints.
Proof. destruct branchPoints; reflexivity. Qed.

End SortFacts.

(** ** LogicTreeVisualization *)

Section LogicTreeFacts.

Import LogicTreeVisualization.

Variable random : nat -> Q.

Lemma nodes_In_from (branchPoints : list BranchPoint) :
  forall (k : nat) (n : Node),
    In n (forEach_from k (fun bp j => [node random bp j]) branchPoints) ->
    exists bp j, In bp branchPoints /\ n = node random bp j.
Proof.
  induction branchPoints as [|bp0 rest IH]; intros k n; simpl; [tauto|].
  intros [<-|Hin].
  - exists bp0, k; auto.
  - destruct (IH _ _ Hin) as [bp [j [Hbp Hn]]]; exists bp, j; auto.
Qed.

Lemma nodes_of_In_from (branchPoints : list BranchPoint) :
  forall (k : nat) (bp : BranchPoint),
    In bp branchPoints ->
    exists j, In (node random bp j)
                (forEach_from k (fun bp j => [node random bp j]) branchPoints).
Proof.
  induction branchPoints as [|bp0 rest IH]; intros k bp; simpl; [tauto|].
  intros [<-|Hin].
  - exists k; auto.
  - destruct (IH (S k) _ Hin) as [j Hj]; exists j; auto.
Qed.

(** [nodes.find(n => n.id === nid)] finds a node exactly when some branch
    point has that [node_id], and the node found carries it. *)
Lemma find_node_resolves (branchPoints : list BranchPoint) (nid : jsstring) :
  resolves branchPoints nid ->
  exists n, find (fun n => String_eq (id n) nid) (nodes random branchPoints)
            = Some n /\ id n = nid.
Proof.
  intros [bp [Hin Hid]].
  destruct (find (fun n => String_eq (id n) nid) (nodes random branchPoints))
    as [n|] eqn:E.
  - exists n; split; [reflexivity|].
    apply find_some in E; apply String_eq_true_iff; apply E.
  - exfalso.
    destruct (nodes_of_In_from branchPoints 0 bp Hin) as [j Hj].
    pose proof (find_none _ _ E _ Hj) as Hno; simpl in Hno.
    rewrite Hid, String_eq_refl in Hno; discriminate.
Qed.

Lemma find_node_unresolved (branchPoints : list BranchPoint) (nid : jsstring) :
  ~ resolves branchPoints nid ->
  find (fun n => String_eq (id n) nid) (nodes random branchPoints) = None.
Proof.
  intros Hno.
  destruct (find (fun n => String_eq (id n) nid) (nodes random branchPoints))
    as [n|] eqn:E; [|reflexivity].
  exfalso; apply Hno.
  apply find_some in E; destruct E as [Hin Heq].
  apply String_eq_true_iff in Heq.
  destruct (nodes_In_from branchPoints 0 n Hin) as [bp [j [Hbp ->]]].
  exists bp; auto.
Qed.

Lemma nonNull_map_flat_map {A B : Type} (f : A -> option B) (xs : list A) :
  nonNull (map f xs)
  = flat_map (fun x => match f x with Some b => [b] | None => [] end) xs.
Proof.
  induction xs as [|x xs IH]; simpl; [reflexivity|].
  destruct (f x); simpl; rewrite IH; reflexivity.
Qed.

(** C8. The links of [LogicTreeVisualization] are the concatenation, in
    the order of the dependencies, of what each dependency yields on its
    own; a dependency whose [source_node_id] or [target_node_id] is the
    [node_id] of no branch point yields no link, and every other
    dependency yields exactly one, from its source to its target with its
    strength and cascade flag. One line is drawn per link. The computation
    is total: no case raises. *)
Theorem links_per_dependency :
  forall (branchPoints : list BranchPoint) (deps : list Dependency),
    let ns := nodes random branchPoints in
    links ns deps = flat_map (fun dep => links ns [dep]) deps
    /\ (forall dep,
          ~ resolves branchPoints (source_node_id dep)
          \/ ~ resolves branchPoints (target_node_id dep) ->
          links ns [dep] = [])
    /\ (forall dep,
          resolves branchPoints (source_node_id dep) ->
          resolves branchPoints (target_node_id dep) ->
          links ns [dep]
          = [ {| source := source_node_id dep;
                 target := target_node_id dep;
                 strength := dependency_strength dep;
                 cascade := cascade_potential dep |} ])
    /\ (forall svg,
          match branchPoints with
          | [] => effect random branchPoints deps svg = svg
          | _ :: _ =>
              hd [] (effect random branchPoints deps svg)
              = map drawLink (links ns deps)
          end).
Proof.
  intros branchPoints deps ns; split; [|split; [|split]].
  - unfold links; rewrite nonNull_map_flat_map.
    apply flat_map_ext; intros dep; simpl.
    destruct (linkOf ns dep); reflexivity.
  - intros dep [Hs|Ht]; unfold links, linkOf, ns; simpl.
    + rewrite (find_node_unresolved _ _ Hs); reflexivity.
    + rewrite (find_node_unresolved _ _ Ht).
      destruct (find _ _); reflexivity.
  - intros dep Hs Ht; unfold links, linkOf, ns; simpl.
    destruct (find_node_resolves _ _ Hs) as [s [-> <-]].
    destruct (find_node_resolves _ _ Ht) as [t [-> <-]].
    reflexivity.
  - intros svg; destruct branchPoints; reflexivity.
Qed.

Lemma nodeOpacity_node (bp : BranchPoint) (k : nat) :
  nodeOpacity (node random bp k) = 0.5 + criticality_score bp * 0.5.
Proof. reflexivity. Qed.

Lemma nodes_nth_from (branchPoints : list BranchPoint) :
  forall (j i : nat) (bp : BranchPoint),
    nth_error branchPoints i = Some bp ->
    nth_error (forEach_from j (fun b k => [node random b k]) branchPoints) i
    = Some (node random bp (j + i)).
Proof.
  induction branchPoints as [|b rest IH]; intros j [|i] bp H;
    simpl in H; try discriminate.
  - injection H as <-; simpl; rewrite Nat.add_0_r; reflexivity.
  - simpl; rewrite (IH (S j) i bp H), Nat.add_succ_r; reflexivity.
Qed.

(** The circle drawn for the branch point at an index: the second group of
    the svg holds, at that index, a circle of radius 20 with the fill of the
    type and the opacity of the score. *)
Lemma circle_drawn (branchPoints : list BranchPoint) (deps : list Dependency)
    (svg : list (list Drawn)) (i : nat) (bp : BranchPoint) :
  nth_error branchPoints i = Some bp ->
  nth_error (nth 1 (effect random branchPoints deps svg) []) i
  = Some (Circle 20 (nodeFill (node random bp i))
            (0.5 + criticality_score bp * 0.5) (node random bp i)).
Proof.
  intros H.
  destruct branchPoints as [|b rest]; [destruct i; discriminate|].
  unfold effect; cbn [length Nat.eqb nth].
  rewrite nth_error_map; unfold nodes, forEach.
  rewrite (nodes_nth_from (b :: rest) 0 i bp H); reflexivity.
Qed.

(** C9. For branch points with [criticality_score] in [0,1], the circles
    that [LogicTreeVisualization] draws for them carry an opacity equal to
    [0.5 + 0.5 * criticality_score]: the opacity of the circle does not
    decrease when the score grows, it lies between 0.5 and 1, so it is never
    0, and it is 0.5 at score 0. *)
Theorem nodeOpacity_monotone_positive :
  forall (branchPoints : list BranchPoint) (deps : list Dependency)
         (svg : list (list Drawn)) (i1 i2 : nat) (bp1 bp2 : BranchPoint),
    nth_error branchPoints i1 = Some bp1 ->
    nth_error branchPoints i2 = Some bp2 ->
    0 <= criticality_score bp1 <= 1 ->
    0 <= criticality_score bp2 <= 1 ->
    let circles := nth 1 (effect random branchPoints deps svg) [] in
    exists (o1 o2 : Q),
      nth_error circles i1
      = Some (Circle 20 (nodeFill (node random bp1 i1)) o1 (node random bp1 i1))
      /\ nth_error circles i2
         = Some (Circle 20 (nodeFill (node random bp2 i2)) o2 (node random bp2 i2))
      /\ o1 == 0.5 + 0.5 * criticality_score bp1
      /\ (criticality_score bp1 <= criticality_score bp2 -> o1 <= o2)
      /\ 0.5 <= o1 <= 1
      /\ 0 < o1
      /\ (criticality_score bp1 == 0 -> o1 == 0.5).
Proof.
  intros branchPoints deps svg i1 i2 bp1 bp2 Hn1 Hn2 [H1 H1'] [H2 H2'] circles.
  exists (0.5 + criticality_score bp1 * 0.5), (0.5 + criticality_score bp2 * 0.5).
  split; [apply circle_drawn; exact Hn1|].
  split; [apply circle_drawn; exact Hn2|].
  split; [ring|].
  split; [intros H; lra|].
  split; [split; lra|].
  split; [lra|].
  intros H0; rewrite H0; ring.
Qed.

End LogicTreeFacts.

Lemma nodeOpacity_monotone_positive_witness :
  let random := fun _ : nat => 0.25 in
  let circles :=
    nth 1 (LogicTreeVisualization.effect random
             [Samples.bpLow; Samples.bpHigh] [] []) [] in
  exists (o1 o2 : Q),
    nth_error circles 0
    = Some (LogicTreeVisualization.Circle 20
              (LogicTreeVisualization.nodeFill
                 (LogicTreeVisualization.node random Samples.bpLow 0))
              o1 (LogicTreeVisualization.node random Samples.bpLow 0))
    /\ nth_error circles 1
       = Some (LogicTreeVisualization.Circle 20
                 (LogicTreeVisualization.nodeFill
                    (LogicTreeVisualization.node random Samples.bpHigh 1))
                 o2 (LogicTreeVisualization.node random Samples.bpHigh 1))
    /\ o1 == 0.5 + 0.5 * criticality_score Samples.bpLow
    /\ (criticality_score Samples.bpLow <= criticality_score Samples.bpHigh ->
        o1 <= o2)
    /\ 0.5 <= o1 <= 1
    /\ 0 < o1
    /\ (criticality_score Samples.bpLow == 0 -> o1 == 0.5).
Proof.
  apply (nodeOpacity_monotone_positive (fun _ => 0.25)
           [Samples.bpLow; Samples.bpHigh] [] [] 0 1
           Samples.bpLow Samples.bpHigh);
    try reflexivity; split; discriminate.
Defined.

(** ** CounterfactualDemo: the submission *)

Lemma trimStart_blank (s : jsstring) : blank s -> trimStart s = [].
Proof.
  induction 1 as [|c s Hc _ IH]; simpl; [reflexivity|].
  rewrite Hc; exact IH.
Qed.

Lemma trim_blank (s : jsstring) : blank s -> trim s = [].
Proof.
  intros H; unfold trim, trimEnd.
  rewrite (trimStart_blank s H); reflexivity.
Qed.

Section SubmitFacts.

Import CounterfactualDemo.

Context {World : Type}.
Variable extract : Json -> World -> (AxiosError + AxiosResponse Json) * World.
Variable analyze :
  Json -> World -> (AxiosError + AxiosResponse CounterfactualAnalysis) * World.
Variable env : option jsstring.

(** The four ways a submission runs. *)
Lemma submit_blank (st : State) (w : World) :
  trim (inputText st) = [] ->
  submit extract analyze env st w
  = (Returned tt,
     {| ui := withError st (Some validationMessage);
        world := w;
        trace := [SetError (Some validationMessage)] |}).
Proof.
  intros H; unfold submit, handleAnalyze.
  rewrite H; reflexivity.
Qed.

Lemma nonblank_length (s : jsstring) :
  trim s <> [] -> (length (trim s) =? 0)%nat = false.
Proof. destruct (trim s); [congruence | reflexivity]. Qed.

Lemma submit_extract_fails (st : State) (w w' : World) (err : AxiosError) :
  trim (inputText st) <> [] ->
  extract (extractBody (inputText st)) w = (inl err, w') ->
  submit extract analyze env st w
  = (Returned tt,
     {| ui := {| inputText := inputText st; analysis := analysis st;
                 loading := false;
                 error := Some (orElse (errorDetail err) genericFailure);
                 showAttorneyModal := showAttorneyModal st |};
        world := w';
        trace := [ SetLoading true; SetError None;
                   Post (extractUrl env) (extractBody (inputText st));
                   SetError (Some (orElse (errorDetail err) genericFailure));
                   ConsoleError err; SetLoading false ] |}).
Proof.
  intros Hin He; unfold submit, handleAnalyze.
  rewrite (nonblank_length _ Hin).
  cbv [bind tryCatchFinally axios_post emit ret setLoading setError
       console_error ui world trace withLoading withError].
  rewrite He; reflexivity.
Qed.

Lemma submit_analyze_fails (st : State) (w w1 w' : World)
    (cir : AxiosResponse Json) (err : AxiosError) :
  trim (inputText st) <> [] ->
  extract (extractBody (inputText st)) w = (inr cir, w1) ->
  analyze (analyzeBody (data cir)) w1 = (inl err, w') ->
  submit extract analyze env st w
  = (Returned tt,
     {| ui := {| inputText := inputText st; analysis := analysis st;
                 loading := false;
                 error := Some (orElse (errorDetail err) genericFailure);
                 showAttorneyModal := showAttorneyModal st |};
        world := w';
        trace := [ SetLoading true; SetError None;
                   Post (extractUrl env) (extractBody (inputText st));
                   Post (analyzeUrl env) (analyzeBody (data cir));
                   SetError (Some (orElse (errorDetail err) genericFailure));
                   ConsoleError err; SetLoading false ] |}).
Proof.
  intros Hin He Ha; unfold submit, handleAnalyze.
  rewrite (nonblank_length _ Hin).
  cbv [bind tryCatchFinally axios_post emit ret setLoading setError
       console_error ui world trace withLoading withError].
  rewrite He; cbv [ui world trace]; rewrite Ha; reflexivity.
Qed.

Lemma submit_succeeds (st : State) (w w1 w2 : World)
    (cir : AxiosResponse Json) (res : AxiosResponse CounterfactualAnalysis) :
  trim (inputText st) <> [] ->
  extract (extractBody (inputText st)) w = (inr cir, w1) ->
  analyze (analyzeBody (data cir)) w1 = (inr res, w2) ->
  submit extract analyze env st w
  = (Returned tt,
     {| ui := {| inputText := inputText st; analysis := Some (data res);
                 loading := false;
                 error := None;
                 showAttorneyModal :=
                   if triggered (attorney_referral (data res)) then true
                   else showAttorneyModal st |};
        world := w2;
        trace := [ SetLoading true; SetError None;
                   Post (extractUrl env) (extractBody (inputText st));
                   Post (analyzeUrl env) (analyzeBody (data cir));
                   SetAnalysis (data res) ]
                 ++ (if triggered (attorney_referral (data res))
                     then [SetShowAttorneyModal true] else [])
                 ++ [SetLoading false] |}).
Proof.
  intros Hin He Ha; unfold submit, handleAnalyze.
  rewrite (nonblank_length _ Hin).
  cbv [bind tryCatchFinally axios_post emit ret setLoading setError
       setAnalysis setShowAttorneyModal console_error ui world trace
       withLoading withError withAnalysis withShowAttorneyModal].
  rewrite He; cbv [ui world trace]; rewrite Ha.
  destruct (triggered (attorney_referral (data res))); reflexivity.
Qed.

(** A submission ends with no error message only when both calls were
    answered. *)
Lemma submit_no_error (st : State) (w : World) :
  error (ui (snd (submit extract analyze env st w))) = None ->
  trim (inputText st) <> []
  /\ exists cir w1 res w2,
       extract (extractBody (inputText st)) w = (inr cir, w1)
       /\ analyze (analyzeBody (data cir)) w1 = (inr res, w2).
Proof.
  intros Hok.
  destruct (trim (inputText st)) as [|c r] eqn:Et.
  - rewrite (submit_blank st w Et) in Hok; discriminate.
  - assert (Hin : trim (inputText st) <> []) by (rewrite Et; discriminate).
    rewrite <- Et; split; [exact Hin|].
    destruct (extract (extractBody (inputText st)) w) as [[err|cir] w1] eqn:He.
    + rewrite (submit_extract_fails st w _ _ Hin He) in Hok; discriminate.
    + destruct (analyze (analyzeBody (data cir)) w1) as [[err|res] w2] eqn:Ha.
      * rewrite (submit_analyze_fails st w _ _ _ _ Hin He Ha) in Hok; discriminate.
      * exists cir, w1, res, w2; split; [reflexivity | exact Ha].
Qed.

(** C3. A submission that succeeds (it ends with no error message) has
    issued exactly two requests, the extraction and then the analysis; the
    analysis is asked of the service as the extraction left it, and the
    [cir_graph] field of its body is the body of the extraction's answer. *)
Theorem submit_success_two_calls :
  forall (st : State) (w : World),
    let run := snd (submit extract analyze env st w) in
    error (ui run) = None ->
    exists cir w1 res w2,
      extract (extractBody (inputText st)) w = (inr cir, w1)
      /\ analyze (analyzeBody (data cir)) w1 = (inr res, w2)
      /\ filter isPost (trace run)
         = [ Post (extractUrl env) (extractBody (inputText st));
             Post (analyzeUrl env) (analyzeBody (data cir)) ]
      /\ optProp (lit "cir_graph") (Some (analyzeBody (data cir)))
         = Some (data cir)
      /\ analysis (ui run) = Some (data res)
      /\ world run = w2.
Proof.
  intros st w run Hok.
  destruct (submit_no_error st w Hok) as [Hin [cir [w1 [res [w2 [He Ha]]]]]].
  exists cir, w1, res, w2.
  subst run; rewrite (submit_succeeds st w _ _ _ _ Hin He Ha); cbn [snd ui world trace].
  repeat split; try assumption.
  destruct (triggered (attorney_referral (data res))); reflexivity.
Qed.

(** C4. When the extraction is rejected, or the analysis after it, the
    submission ends with the error message taken from the rejected call: the
    [detail] field of the body of its response when the response has a body
    that is an object with a truthy [detail], and the generic failure string
    in every other case (no response, a body that is no object, no [detail]
    in it, a falsy [detail]). [loading] is false; [setLoading(false)] has run
    exactly once; no result was applied, and the result held before and the
    modal flag are as they were. *)
Theorem submit_failure_reported :
  forall (st : State) (w w' : World) (err : AxiosError),
    trim (inputText st) <> [] ->
    callFails extract analyze (inputText st) w err w' ->
    let run := snd (submit extract analyze env st w) in
    (forall resp fields d,
       response err = Some resp -> data resp = JObj fields ->
       getField (lit "detail") fields = Some d -> truthy d = true ->
       error (ui run) = Some d)
    /\ (forall resp fields d,
          response err = Some resp -> data resp = JObj fields ->
          getField (lit "detail") fields = Some d -> truthy d = false ->
          error (ui run) = Some genericFailure)
    /\ (forall resp fields,
          response err = Some resp -> data resp = JObj fields ->
          getField (lit "detail") fields = None ->
          error (ui run) = Some genericFailure)
    /\ (forall resp,
          response err = Some resp ->
          (forall fields, data resp <> JObj fields) ->
          error (ui run) = Some genericFailure)
    /\ (response err = None -> error (ui run) = Some genericFailure)
    /\ loading (ui run) = false
    /\ length (filter (isSetLoading false) (trace run)) = 1%nat
    /\ filter isSetAnalysis (trace run) = []
    /\ analysis (ui run) = analysis st
    /\ showAttorneyModal (ui run) = showAttorneyModal st.
Proof.
  intros st w w' err Hin Hfail run.
  assert (Herr : error (ui run) = Some (orElse (errorDetail err) genericFailure)
                 /\ loading (ui run) = false
                 /\ length (filter (isSetLoading false) (trace run)) = 1%nat
                 /\ filter isSetAnalysis (trace run) = []
                 /\ analysis (ui run) = analysis st
                 /\ showAttorneyModal (ui run) = showAttorneyModal st).
  { subst run; destruct Hfail as [He | [cir [w1 [He Ha]]]].
    - rewrite (submit_extract_fails st w _ _ Hin He); repeat split.
    - rewrite (submit_analyze_fails st w _ _ _ _ Hin He Ha); repeat split. }
  destruct Herr as [He Hrest]; rewrite He; unfold errorDetail.
  split; [|split; [|split; [|split; [|split; [|exact Hrest]]]]].
  - intros resp fields d -> -> Hd Ht; unfold optProp, orElse.
    rewrite Hd, Ht; reflexivity.
  - intros resp fields d -> -> Hd Ht; unfold optProp, orElse.
    rewrite Hd, Ht; reflexivity.
  - intros resp fields -> -> Hd; unfold optProp, orElse.
    rewrite Hd; reflexivity.
  - intros resp -> Hno; unfold optProp, orElse.
    destruct (data resp) as [| | | | |fields] eqn:Ed; try reflexivity.
    exfalso; exact (Hno fields eq_refl).
  - intros ->; reflexivity.
Qed.

(** C5. Submitting an input that is empty or made of white space only
    issues no request: the run does nothing but set the error message to the
    fixed validation message; the held result, the loading flag and the
    service are as they were. *)
Theorem submit_blank_input :
  forall (st : State) (w : World),
    blank (inputText st) ->
    let run := snd (submit extract analyze env st w) in
    filter isPost (trace run) = []
    /\ trace run = [SetError (Some validationMessage)]
    /\ error (ui run) = Some validationMessage
    /\ analysis (ui run) = analysis st
    /\ loading (ui run) = loading st
    /\ world run = w.
Proof.
  intros st w Hb run; subst run.
  rewrite (submit_blank st w (trim_blank _ Hb)).
  repeat split.
Qed.

End SubmitFacts.


Lemma submit_success_two_calls_witness :
  let run := snd (CounterfactualDemo.submit Samples.extractOk Samples.analyzeOk
                    None Samples.sampleLoaded 0%nat) in
  exists cir w1 res w2,
    Samples.extractOk
      (CounterfactualDemo.extractBody
         (CounterfactualDemo.inputText Samples.sampleLoaded)) 0%nat
    = (inr cir, w1)
    /\ Samples.analyzeOk (CounterfactualDemo.analyzeBody (data cir)) w1
       = (inr res, w2)
    /\ filter CounterfactualDemo.isPost (CounterfactualDemo.trace run)
       = [ CounterfactualDemo.Post (CounterfactualDemo.extractUrl None)
             (CounterfactualDemo.extractBody
                (CounterfactualDemo.inputText Samples.sampleLoaded));
           CounterfactualDemo.Post (CounterfactualDemo.analyzeUrl None)
             (CounterfactualDemo.analyzeBody (data cir)) ]
    /\ optProp (lit "cir_graph")
         (Some (CounterfactualDemo.analyzeBody (data cir)))
       = Some (data cir)
    /\ CounterfactualDemo.analysis (CounterfactualDemo.ui run) = Some (data res)
    /\ CounterfactualDemo.world run = w2.
Proof.
  apply (submit_success_two_calls Samples.extractOk Samples.analyzeOk None
           Samples.sampleLoaded 0%nat).
  vm_compute; reflexivity.
Defined.

Lemma submit_failure_reported_witness :
  let run := snd (CounterfactualDemo.submit Samples.extractOk
                    Samples.analyzeRejects None Samples.sampleLoaded 0%nat) in
  CounterfactualDemo.error (CounterfactualDemo.ui run)
  = Some (JStr (lit "Narrative too short"))
  /\ CounterfactualDemo.loading (CounterfactualDemo.ui run) = false
  /\ length (filter (CounterfactualDemo.isSetLoading false)
               (CounterfactualDemo.trace run)) = 1%nat
  /\ filter CounterfactualDemo.isSetAnalysis (CounterfactualDemo.trace run) = []
  /\ CounterfactualDemo.analysis (CounterfactualDemo.ui run)
     = CounterfactualDemo.analysis Samples.sampleLoaded
  /\ CounterfactualDemo.showAttorneyModal (CounterfactualDemo.ui run)
     = CounterfactualDemo.showAttorneyModal Samples.sampleLoaded.
Proof.
  assert (Hnb : trim (CounterfactualDemo.inputText Samples.sampleLoaded) <> [])
    by (vm_compute; discriminate).
  destruct (submit_failure_reported Samples.extractOk Samples.analyzeRejects
              None Samples.sampleLoaded 0%nat 2%nat
              {| response :=
                   Some {| status := 422;
                           data := JObj [ (lit "detail",
                                           JStr (lit "Narrative too short")) ] |} |}
              Hnb
              (or_intror
                 (ex_intro _ {| status := 200; data := Samples.cirGraph |}
                    (ex_intro _ 1%nat (conj eq_refl eq_refl)))))
    as [Hdetail [_ [_ [_ [_ Hrest]]]]].
  split; [|exact Hrest].
  apply (Hdetail
           {| status := 422;
              data := JObj [ (lit "detail", JStr (lit "Narrative too short")) ] |}
           [ (lit "detail", JStr (lit "Narrative too short")) ]
           (JStr (lit "Narrative too short")));
    reflexivity.
Defined.

Lemma submit_blank_input_witness :
  let run := snd (CounterfactualDemo.submit Samples.extractOk Samples.analyzeOk
                    None Samples.blanksTyped 0%nat) in
  filter CounterfactualDemo.isPost (CounterfactualDemo.trace run) = []
  /\ CounterfactualDemo.trace run
     = [CounterfactualDemo.SetError (Some CounterfactualDemo.validationMessage)]
  /\ CounterfactualDemo.error (CounterfactualDemo.ui run)
     = Some CounterfactualDemo.validationMessage
  /\ CounterfactualDemo.analysis (CounterfactualDemo.ui run)
     = CounterfactualDemo.analysis Samples.blanksTyped
  /\ CounterfactualDemo.loading (CounterfactualDemo.ui run)
     = CounterfactualDemo.loading Samples.blanksTyped
  /\ CounterfactualDemo.world run = 0%nat.
Proof.
  apply (submit_blank_input Samples.extractOk Samples.analyzeOk None
           Samples.blanksTyped 0%nat).
  repeat constructor.
Defined.

(** C6 (refuted on the code). The modal is to be visible after a result
    is applied exactly when the result's [attorney_referral.triggered] is
    true. The sample service answers a first submission with a result that
    triggers the referral, which opens the modal; the analyze button stays
    enabled, and a second submission, made before the modal is closed, is
    answered with a result that does not trigger it. The second submission
    succeeds, its result is applied, its [triggered] is false, and the modal
    is visible: the handler never sets the flag back. *)
Lemma modal_visible_without_trigger :
  let first :=
    snd (CounterfactualDemo.submit Samples.extractOk Samples.analyzeOk None
           Samples.sampleLoaded 0%nat) in
  let second :=
    snd (CounterfactualDemo.submit Samples.extractOk Samples.analyzeOk None
           (CounterfactualDemo.ui first) (CounterfactualDemo.world first)) in
  CounterfactualDemo.analyzeDisabled (CounterfactualDemo.ui first) = false
  /\ CounterfactualDemo.error (CounterfactualDemo.ui second) = None
  /\ exists result,
       CounterfactualDemo.analysis (CounterfactualDemo.ui second) = Some result
       /\ triggered (attorney_referral result) = false
       /\ CounterfactualDemo.modalVisible (CounterfactualDemo.ui second) = true.
Proof.
  split; [vm_compute; reflexivity|].
  split; [vm_compute; reflexivity|].
  exists (Samples.analysisOf "a" [Samples.bpLow; Samples.bpHigh] false).
  split; [vm_compute; reflexivity|].
  split; vm_compute; reflexivity.
Qed.

(** ** The branch-point array after a render *)

Lemma withBranchPoints_same (a : CounterfactualAnalysis) :
  CounterfactualDemo.withBranchPoints a (branch_points a) = a.
Proof. destruct a; reflexivity. Qed.

(** What a render of the results leaves in the state: the branch-point array
    sorted, the same branch points in it, and the rest as it was; so the held
    analysis is unchanged exactly when its branch points arrived in
    non-increasing order of score. *)
Lemma renderResults_held (random : nat -> Q) (a : CounterfactualAnalysis) :
  let after := CounterfactualDemo.held (CounterfactualDemo.renderResults random a) in
  after
  = CounterfactualDemo.withBranchPoints a
      (Array_sort BranchPointHighlighter.byCriticalityDesc (branch_points a))
  /\ Permutation (branch_points a) (branch_points after)
  /\ (after = a <-> StronglySorted notBelow (branch_points a)).
Proof.
  cbv zeta.
  assert (H : CounterfactualDemo.held (CounterfactualDemo.renderResults random a)
              = CounterfactualDemo.withBranchPoints a
                  (Array_sort BranchPointHighlighter.byCriticalityDesc
                     (branch_points a))).
  { unfold CounterfactualDemo.renderResults.
    pose proof (render_array (branch_points a)) as Hr.
    destruct (BranchPointHighlighter.render (branch_points a)) as [bps jsx].
    simpl in Hr; subst bps; reflexivity. }
  rewrite H; split; [reflexivity|]; split.
  - apply Array_sort_perm.
  - rewrite <- Array_sort_fixed_iff; split.
    + intros Heq.
      apply (f_equal branch_points) in Heq; exact Heq.
    + intros Heq; rewrite Heq; apply withBranchPoints_same.
Qed.

(** C2 (refuted on the code). [BranchPointHighlighter] sorts the array it
    is given in place. Rendering the results of an analysis whose branch
    points arrive as (0.2, 0.9) leaves the held analysis with them as
    (0.9, 0.2): the object held in the state is not what it was before the
    render, and the heatmap, drawn after the commit from the same array,
    lays its cells out in the new order. *)
Theorem highlighter_reorders_held_array :
  forall (random : nat -> Q),
    let a := Samples.analysisOf "a" [Samples.bpLow; Samples.bpHigh] false in
    let rendered := CounterfactualDemo.renderResults random a in
    fst (BranchPointHighlighter.render (branch_points a))
    = [Samples.bpHigh; Samples.bpLow]
    /\ branch_points (CounterfactualDemo.held rendered)
       = [Samples.bpHigh; Samples.bpLow]
    /\ CounterfactualDemo.held rendered <> a
    /\ dependencies (CounterfactualDemo.held rendered) = dependencies a
    /\ cascades (CounterfactualDemo.held rendered) = cascades a.
Proof.
  intros random a rendered.
  assert (H : fst (BranchPointHighlighter.render (branch_points a))
              = [Samples.bpHigh; Samples.bpLow]) by (vm_compute; reflexivity).
  assert (Hh : branch_points (CounterfactualDemo.held rendered)
               = [Samples.bpHigh; Samples.bpLow]).
  { subst rendered; unfold CounterfactualDemo.renderResults.
    destruct (BranchPointHighlighter.render (branch_points a)) as [bps jsx].
    simpl in *; exact H. }
  split; [exact H|]; split; [exact Hh|]; split; [|split].
  - intros Heq; rewrite Heq in Hh; vm_compute in Hh; discriminate.
  - subst rendered; unfold CounterfactualDemo.renderResults.
    destruct (BranchPointHighlighter.render (branch_points a)); reflexivity.
  - subst rendered; unfold CounterfactualDemo.renderResults.
    destruct (BranchPointHighlighter.render (branch_points a)); reflexivity.
Qed.

(* ------------------------------------------------------------------ *)
(** * Further facts *)

(** ** RiskHeatmap: the rows of the grid *)

Section RiskHeatmapRows.

Import RiskHeatmap.

Lemma BranchType_eqb_refl (t : BranchType) : BranchType_eqb t t = true.
Proof. destruct t; reflexivity. Qed.

Lemma typeGroup_push (groups : list (BranchType * list RiskItem))
    (it : RiskItem) (t : BranchType) :
  typeGroup t (push_group groups it)
  = typeGroup t groups ++ (if ofType t it then [it] else []).
Proof.
  unfold typeGroup, ofType.
  induction groups as [|[t0 items] rest IH]; simpl.
  - destruct (BranchType_eqb (type it) t) eqn:E.
    + apply BranchType_eqb_eq in E; subst t.
      rewrite BranchType_eqb_refl; reflexivity.
    + destruct (BranchType_eqb t (type it)) eqn:E'; [|reflexivity].
      apply BranchType_eqb_eq in E'; subst t.
      rewrite BranchType_eqb_refl in E; discriminate.
  - destruct (BranchType_eqb t0 (type it)) eqn:E0; simpl.
    + apply BranchType_eqb_eq in E0; subst t0.
      destruct (BranchType_eqb (type it) t) eqn:E.
      * apply BranchType_eqb_eq in E; subst t.
        rewrite BranchType_eqb_refl; reflexivity.
      * destruct (BranchType_eqb t (type it)) eqn:E'.
        -- apply BranchType_eqb_eq in E'; subst t.
           rewrite BranchType_eqb_refl in E; discriminate.
        -- rewrite app_nil_r; reflexivity.
    + destruct (BranchType_eqb t0 t) eqn:E.
      * apply BranchType_eqb_eq in E; subst t0.
        rewrite E0, app_nil_r; reflexivity.
      * exact IH.
Qed.

Lemma typeGroup_fold (data : list RiskItem) :
  forall (groups : list (BranchType * list RiskItem)) (t : BranchType),
    typeGroup t (fold_left push_group data groups)
    = typeGroup t groups ++ filter (ofType t) data.
Proof.
  induction data as [|it data IH]; intros groups t; simpl.
  - rewrite app_nil_r; reflexivity.
  - rewrite IH, typeGroup_push, <- app_assoc.
    destruct (ofType t it); reflexivity.
Qed.

Lemma push_group_keys (groups : list (BranchType * list RiskItem))
    (it : RiskItem) (k : BranchType) :
  In k (map fst (push_group groups it))
  <-> In k (map fst groups) \/ k = type it.
Proof.
  induction groups as [|[t0 items] rest IH]; simpl.
  - intuition congruence.
  - destruct (BranchType_eqb t0 (type it)) eqn:E; simpl.
    + apply BranchType_eqb_eq in E; subst t0; intuition congruence.
    + rewrite IH; tauto.
Qed.

Lemma push_group_NoDup (groups : list (BranchType * list RiskItem))
    (it : RiskItem) :
  NoDup (map fst groups) -> NoDup (map fst (push_group groups it)).
Proof.
  induction groups as [|[t0 items] rest IH]; simpl; intros Hnd.
  - constructor; [intros [] | constructor].
  - inversion Hnd as [|? ? Hnot Hrest]; subst.
    destruct (BranchType_eqb t0 (type it)) eqn:E; simpl.
    + constructor; assumption.
    + constructor; [|apply IH; exact Hrest].
      rewrite push_group_keys; intros [H|H]; [exact (Hnot H)|].
      subst t0; rewrite BranchType_eqb_refl in E; discriminate.
Qed.

Lemma push_group_nonempty (groups : list (BranchType * list RiskItem))
    (it : RiskItem) :
  Forall (fun g => snd g <> []) groups ->
  Forall (fun g => snd g <> []) (push_group groups it).
Proof.
  induction 1 as [|[t0 items] rest Hg Hrest IH]; simpl.
  - constructor; [discriminate | constructor].
  - destruct (BranchType_eqb t0 (type it)).
    + constructor; [|assumption].
      simpl; destruct items; discriminate.
    + constructor; assumption.
Qed.

Lemma typeGroups_invariant (data : list RiskItem) :
  forall groups : list (BranchType * list RiskItem),
    NoDup (map fst groups) ->
    Forall (fun g => snd g <> []) groups ->
    NoDup (map fst (fold_left push_group data groups))
    /\ Forall (fun g => snd g <> []) (fold_left push_group data groups)
    /\ forall k, In k (map fst (fold_left push_group data groups))
                 <-> In k (map fst groups) \/ In k (map type data).
Proof.
  induction data as [|it data IH]; intros groups Hnd Hne; simpl.
  - repeat split; try assumption; tauto.
  - destruct (IH (push_group groups it) (push_group_NoDup groups it Hnd)
                (push_group_nonempty groups it Hne)) as [H1 [H2 H3]].
    repeat split; try assumption.
    + intros H; apply H3 in H; rewrite push_group_keys in H.
      destruct H as [[H|H]|H]; auto.
    + intros H; apply H3; rewrite push_group_keys.
      destruct H as [H|[H|H]]; auto.
Qed.

Lemma typeGroup_of_member (groups : list (BranchType * list RiskItem))
    (g : BranchType * list RiskItem) :
  NoDup (map fst groups) -> In g groups -> typeGroup (fst g) groups = snd g.
Proof.
  unfold typeGroup.
  induction groups as [|g0 rest IH]; intros Hnd Hin; [destruct Hin|].
  inversion Hnd as [|? ? Hnot Hrest]; subst; simpl.
  destruct Hin as [->|Hin].
  - rewrite BranchType_eqb_refl; reflexivity.
  - destruct (BranchType_eqb (fst g0) (fst g)) eqn:E.
    + apply BranchType_eqb_eq in E.
      exfalso; apply Hnot; rewrite E; apply in_map; exact Hin.
    + apply IH; assumption.
Qed.

Lemma typeGroups_keys (data : list RiskItem) :
  NoDup (map fst (typeGroups data))
  /\ forall t, In t (map fst (typeGroups data)) <-> In t (map type data).
Proof.
  unfold typeGroups.
  destruct (typeGroups_invariant data [] (NoDup_nil _) (Forall_nil _))
    as [Hnd [_ Hkeys]].
  split; [exact Hnd|].
  intros t; rewrite Hkeys; simpl; tauto.
Qed.

Lemma typeGroups_row (data : list RiskItem) (t : BranchType)
    (items : list RiskItem) :
  In (t, items) (typeGroups data) ->
  items = filter (ofType t) data /\ items <> [].
Proof.
  unfold typeGroups; intros Hin.
  destruct (typeGroups_invariant data [] (NoDup_nil _) (Forall_nil _))
    as [Hnd [Hne _]].
  split.
  - pose proof (typeGroup_of_member _ (t, items) Hnd Hin) as Hrow.
    simpl in Hrow; rewrite <- Hrow, typeGroup_fold; reflexivity.
  - rewrite Forall_forall in Hne; exact (Hne _ Hin).
Qed.

(** X1. The rows of the heatmap: [typeGroups] has one row per type that
    occurs, no type twice and no empty row, and the row of a type holds
    exactly the items of that type in the order of the input. *)
Theorem typeGroups_rows :
  forall (data : list RiskItem),
    NoDup (map fst (typeGroups data))
    /\ (forall t, In t (map fst (typeGroups data)) <-> In t (map type data))
    /\ (forall t items,
          In (t, items) (typeGroups data) ->
          items = filter (ofType t) data /\ items <> []).
Proof.
  intros data.
  destruct (typeGroups_keys data) as [Hnd Hkeys].
  split; [exact Hnd|]; split; [exact Hkeys|].
  intros t items Hin; apply typeGroups_row; exact Hin.
Qed.

End RiskHeatmapRows.

(** ** RiskHeatmap: the range of the risk, and the drawing *)

Section RiskHeatmapDrawing.

Import RiskHeatmap.

(** X2. When the criticality of a branch point and the severity of every
    cascade lie in [0,1], the combined risk of the branch point lies in
    [0,1], the domain of the colour scale; and it is at least 0.6 times the
    criticality whatever the cascades of that range. *)
Theorem risk_in_unit_interval :
  forall (cascades : list Cascade) (bp : BranchPoint),
    0 <= criticality_score bp <= 1 ->
    (forall c, In c cascades -> 0 <= severity_score c <= 1) ->
    0 <= risk (riskItem cascades bp) <= 1
    /\ criticality_score bp * 0.6 <= risk (riskItem cascades bp).
Proof.
  intros cascades bp [Hc0 Hc1] Hsev.
  assert (Hm : 0 <= maxSeverity (relatedCascades cascades bp) <= 1).
  { destruct (maxSeverity_spec cascades bp) as [[_ ->]|[[c [[Hin _] <-]] _]].
    - split; discriminate.
    - apply Hsev; exact Hin. }
  destruct Hm as [Hm0 Hm1]; simpl.
  repeat split; lra.
Qed.

Lemma risk_in_unit_interval_witness :
  0 <= risk (riskItem Samples.someCascades Samples.bpMid) <= 1
  /\ criticality_score Samples.bpMid * 0.6
     <= risk (riskItem Samples.someCascades Samples.bpMid).
Proof.
  apply (risk_in_unit_interval Samples.someCascades Samples.bpMid).
  - split; discriminate.
  - intros c [<-|[<-|[<-|[]]]]; split; discriminate.
Defined.

Lemma filter_forEach_from {A B : Type} (p : B -> bool) (f : A -> nat -> list B)
    (xs : list A) :
  forall k, filter p (forEach_from k f xs)
            = forEach_from k (fun x i => filter p (f x i)) xs.
Proof.
  induction xs as [|x xs IH]; intros k; simpl; [reflexivity|].
  rewrite filter_app, IH; reflexivity.
Qed.

Lemma length_forEach_from {A B : Type} (f : A -> nat -> list B)
    (size : A -> nat) (xs : list A) :
  (forall x i, length (f x i) = size x) ->
  forall k, length (forEach_from k f xs) = list_sum (map size xs).
Proof.
  intros Hf; induction xs as [|x xs IH]; intros k; simpl; [reflexivity|].
  rewrite length_app, Hf, IH; reflexivity.
Qed.

Lemma push_group_total (groups : list (BranchType * list RiskItem))
    (it : RiskItem) :
  list_sum (map (fun g => length (snd g)) (push_group groups it))
  = S (list_sum (map (fun g => length (snd g)) groups)).
Proof.
  induction groups as [|[t items] rest IH]; simpl; [reflexivity|].
  destruct (BranchType_eqb t (type it)); simpl.
  - rewrite length_app; simpl; lia.
  - rewrite IH; lia.
Qed.

Lemma typeGroups_total (data : list RiskItem) :
  forall groups,
    list_sum (map (fun g => length (snd g)) (fold_left push_group data groups))
    = (list_sum (map (fun g => length (snd g)) groups) + length data)%nat.
Proof.
  induction data as [|it data IH]; intros groups; simpl; [lia|].
  rewrite IH, push_group_total; lia.
Qed.

Lemma drawRow_counts (g : BranchType * list RiskItem) (typeIdx : nat) :
  length (filter isCell (drawRow g typeIdx)) = length (snd g)
  /\ length (filter isRiskText (drawRow g typeIdx)) = length (snd g)
  /\ length (filter isTypeLabel (drawRow g typeIdx)) = 1%nat.
Proof.
  destruct g as [t items]; unfold drawRow, forEach; simpl.
  rewrite !filter_app, !length_app, !filter_forEach_from; simpl.
  rewrite (length_forEach_from _ (fun _ => 1%nat)) by reflexivity.
  rewrite (length_forEach_from _ (fun _ => 1%nat)) by reflexivity.
  rewrite (length_forEach_from _ (fun _ => 0%nat)) by reflexivity.
  assert (H1 : forall n (l : list RiskItem),
             list_sum (map (fun _ => n) l) = (n * length l)%nat).
  { intros n l; induction l; simpl; lia. }
  rewrite !H1; lia.
Qed.

(** X3. For a non-empty list of branch points the effect replaces
    whatever the svg held by a drawing that has exactly one cell and one
    risk value per branch point, one row label per type that occurs (at
    least one), and the four elements of the legend at its end. *)
Theorem heatmap_drawing_counts :
  forall (bp : BranchPoint) (rest : list BranchPoint)
         (cascades : list Cascade) (svg : list Drawn),
    let branchPoints := bp :: rest in
    let drawing := effect branchPoints cascades svg in
    drawing = effect branchPoints cascades []
    /\ length (filter isCell drawing) = length branchPoints
    /\ length (filter isRiskText drawing) = length branchPoints
    /\ length (filter isTypeLabel drawing)
       = length (typeGroups (riskData branchPoints cascades))
    /\ (1 <= length (filter isTypeLabel drawing))%nat
    /\ skipn (length drawing - 4) drawing = drawLegend.
Proof.
  intros bp rest cascades svg branchPoints drawing.
  set (groups := typeGroups (riskData branchPoints cascades)).
  assert (Hd : drawing = forEach drawRow groups ++ drawLegend) by reflexivity.
  assert (Hc : length (filter isCell (forEach drawRow groups))
               = length branchPoints
               /\ length (filter isRiskText (forEach drawRow groups))
                  = length branchPoints
               /\ length (filter isTypeLabel (forEach drawRow groups))
                  = length groups).
  { unfold forEach; rewrite !filter_forEach_from.
    rewrite (length_forEach_from _ (fun g => length (snd g)))
      by (intros g i; apply drawRow_counts).
    rewrite (length_forEach_from _ (fun g => length (snd g)))
      by (intros g i; apply drawRow_counts).
    rewrite (length_forEach_from _ (fun _ => 1%nat))
      by (intros g i; apply drawRow_counts).
    unfold groups, typeGroups; rewrite typeGroups_total; simpl.
    unfold riskData; rewrite length_map.
    repeat split; try reflexivity.
    induction (fold_left _ _ _); simpl; lia. }
  destruct Hc as [Hc1 [Hc2 Hc3]].
  split; [reflexivity|].
  rewrite Hd, !filter_app, !length_app; simpl.
  rewrite Hc1, Hc2, Hc3.
  repeat split; try lia; try (unfold branchPoints; simpl; lia).
  - destruct (typeGroups_keys (riskData branchPoints cascades))
      as [_ Hkeys].
    assert (Hin : In (branch_type bp) (map fst groups)).
    { apply Hkeys; simpl; left; reflexivity. }
    destruct groups; [destruct Hin | simpl; lia].
  - replace (length (forEach drawRow groups) + 4 - 4)%nat
      with (length (forEach drawRow groups) + 0)%nat by lia.
    rewrite skipn_app, Nat.add_0_r, skipn_all.
    replace (length (forEach drawRow groups) - length (forEach drawRow groups))%nat
      with 0%nat by lia.
    reflexivity.
Qed.

End RiskHeatmapDrawing.

(** ** RiskHeatmap: where the cells are *)

Section RiskHeatmapCells.

Import RiskHeatmap.

Lemma cellCorners_app (a b : list Drawn) :
  cellCorners (a ++ b) = cellCorners a ++ cellCorners b.
Proof.
  induction a as [|d a IH]; simpl; [reflexivity|].
  destruct d; simpl; rewrite IH; reflexivity.
Qed.

Lemma rowItems_corners (t : BranchType) (typeIdx : nat) (items : list RiskItem) :
  forall j,
    cellCorners (forEach_from j (drawItem t typeIdx) items)
    = map (cornerAt typeIdx) (seq j (length items)).
Proof.
  induction items as [|it items IH]; intros j; simpl; [reflexivity|].
  rewrite IH; reflexivity.
Qed.

Lemma drawRow_corners (g : BranchType * list RiskItem) (typeIdx : nat) :
  cellCorners (drawRow g typeIdx)
  = map (cornerAt typeIdx) (seq 0 (length (snd g))).
Proof.
  destruct g as [t items]; unfold drawRow, forEach.
  rewrite cellCorners_app, rowItems_corners; simpl.
  apply app_nil_r.
Qed.

Lemma rows_corners_In (groups : list (BranchType * list RiskItem)) :
  forall (k : nat) (c : Z * Z),
    In c (cellCorners (forEach_from k drawRow groups)) ->
    exists typeIdx itemIdx g,
      nth_error groups typeIdx = Some g
      /\ (itemIdx < length (snd g))%nat
      /\ c = cornerAt (k + typeIdx) itemIdx.
Proof.
  induction groups as [|g groups IH]; intros k c; simpl; [tauto|].
  rewrite cellCorners_app, drawRow_corners, in_app_iff, in_map_iff.
  intros [[itemIdx [<- Hin]]|Hin].
  - apply in_seq in Hin.
    exists 0%nat, itemIdx, g; rewrite Nat.add_0_r.
    repeat split; [lia].
  - destruct (IH (S k) c Hin) as [typeIdx [itemIdx [g' [Hn [Hlt ->]]]]].
    exists (S typeIdx), itemIdx, g'.
    rewrite Nat.add_succ_r; repeat split; assumption.
Qed.

Lemma cornerAt_inj (t1 i1 t2 i2 : nat) :
  cornerAt t1 i1 = cornerAt t2 i2 -> t1 = t2 /\ i1 = i2.
Proof.
  intros H.
  pose proof (f_equal fst H) as H1; pose proof (f_equal snd H) as H2.
  unfold cornerAt in H1, H2; cbn [fst snd] in H1, H2.
  unfold padding, cellSize in H1, H2; split; lia.
Qed.

Lemma rows_corners_NoDup (groups : list (BranchType * list RiskItem)) :
  forall k, NoDup (cellCorners (forEach_from k drawRow groups)).
Proof.
  induction groups as [|g groups IH]; intros k; simpl; [constructor|].
  rewrite cellCorners_app, drawRow_corners.
  apply NoDup_app.
  - generalize (seq_NoDup (length (snd g)) 0).
    induction 1 as [|i l Hnot _ IHl]; simpl; constructor; [|exact IHl].
    rewrite in_map_iff; intros [j [Hj Hin]].
    apply cornerAt_inj in Hj; destruct Hj as [_ ->]; exact (Hnot Hin).
  - apply IH.
  - intros c Hrow Hrest.
    apply in_map_iff in Hrow; destruct Hrow as [i [<- _]].
    destruct (rows_corners_In _ _ _ Hrest) as [typeIdx [itemIdx [g' [_ [_ Hc]]]]].
    apply cornerAt_inj in Hc; lia.
Qed.

Lemma nonempty_rows_length (groups : list (BranchType * list RiskItem)) :
  Forall (fun g => snd g <> []) groups ->
  (length groups <= list_sum (map (fun g => length (snd g)) groups))%nat.
Proof.
  induction 1 as [|g gs Hg Hrest IH]; simpl; [lia|].
  destruct (snd g) as [|it items]; [congruence|].
  simpl; lia.
Qed.

Lemma typeGroups_length (data : list RiskItem) :
  (length (typeGroups data) <= length data)%nat.
Proof.
  pose proof (typeGroups_total data []) as Htotal; simpl in Htotal.
  unfold typeGroups; rewrite <- Htotal.
  apply nonempty_rows_length.
  apply (typeGroups_invariant data [] (NoDup_nil _) (Forall_nil _)).
Qed.

(** X4. The cells of a drawing sit on a grid of step [cellSize] from
    [padding], one grid row per row of [typeGroups]: no two cells share a
    corner, so no two overlap; no cell starts left of or above the svg; with
    at most six rows every cell lies inside the height of 300, and with at
    most 14 branch points inside the width of 600. *)
Theorem heatmap_cells_placed :
  forall (bp : BranchPoint) (rest : list BranchPoint)
         (cascades : list Cascade) (svg : list Drawn),
    let branchPoints := bp :: rest in
    let rows := typeGroups (riskData branchPoints cascades) in
    let corners := cellCorners (effect branchPoints cascades svg) in
    NoDup corners
    /\ (length rows <= length branchPoints)%nat
    /\ forall x y : Z,
         In (x, y) corners ->
         (exists typeIdx itemIdx : nat,
            (x, y) = cornerAt typeIdx itemIdx
            /\ (typeIdx < length rows)%nat
            /\ (itemIdx < length branchPoints)%nat)
         /\ (0 <= x /\ 0 <= y)%Z
         /\ ((length rows <= 6)%nat -> (y + (cellSize - 2) <= height)%Z)
         /\ ((length branchPoints <= 14)%nat ->
             (x + (cellSize - 2) <= width)%Z).
Proof.
  intros bp rest cascades svg branchPoints rows corners.
  assert (Hc : corners = cellCorners (forEach_from 0 drawRow rows)).
  { unfold corners, effect; simpl.
    fold branchPoints; fold rows.
    rewrite cellCorners_app; unfold forEach; simpl; apply app_nil_r. }
  rewrite Hc; split; [apply rows_corners_NoDup|].
  split.
  { unfold rows; eapply Nat.le_trans; [apply typeGroups_length|].
    unfold riskData; rewrite length_map; apply Nat.le_refl. }
  intros x y Hin.
  destruct (rows_corners_In _ _ _ Hin)
    as [typeIdx [itemIdx [[t items] [Hn [Hlt Hxy]]]]].
  simpl in Hlt, Hxy.
  pose proof (typeGroups_row (riskData branchPoints cascades)) as Hrows.
  fold rows in Hrows.
  assert (Ht : (typeIdx < length rows)%nat)
    by (apply nth_error_Some; rewrite Hn; discriminate).
  assert (Hi : (itemIdx < length branchPoints)%nat).
  { destruct (Hrows t items (nth_error_In _ _ Hn)) as [Hitems _].
    rewrite Hitems in Hlt.
    pose proof (filter_length_le (ofType t) (riskData branchPoints cascades)) as Hle.
    unfold riskData in Hle at 2; rewrite length_map in Hle; lia. }
  assert (Hx : x = (40 + Z.of_nat itemIdx * 40)%Z
               /\ y = (40 + Z.of_nat typeIdx * 40)%Z).
  { pose proof (f_equal fst Hxy) as H1; pose proof (f_equal snd Hxy) as H2.
    unfold cornerAt in H1, H2; cbn [fst snd] in H1, H2; auto. }
  destruct Hx as [Hx Hy].
  split; [exists typeIdx, itemIdx; auto|].
  unfold cellSize, height, width; split; [lia|].
  split; intros Hlen; lia.
Qed.

End RiskHeatmapCells.

(** ** BranchPointHighlighter: rendering again, keys, colours *)

Section HighlighterFacts.

Import BranchPointHighlighter.

(** X5. Rendering is stable under re-rendering: a second render, on the
    array as the first one left it, leaves the array as it is and shows the
    same list. *)
Theorem render_again :
  forall (branchPoints : list BranchPoint),
    render (fst (render branchPoints)) = render branchPoints.
Proof.
  intros [|bp rest]; [reflexivity|].
  rewrite render_array.
  set (sorted := Array_sort byCriticalityDesc (bp :: rest)).
  assert (Hlen : length sorted = S (length rest)).
  { symmetry; apply (Permutation_length (Array_sort_perm (bp :: rest))). }
  assert (Hfix : Array_sort byCriticalityDesc sorted = sorted)
    by (apply Array_sort_fixed_iff, Array_sort_sorted).
  unfold render; rewrite Hlen, Hfix; reflexivity.
Qed.

(** X6. The list shows every branch point once: the items are a
    rearrangement of the items of the input, and when the branch points have
    distinct [branch_id]s the React keys of the items are distinct. *)
Theorem rendered_keys_distinct :
  forall (bp : BranchPoint) (rest : list BranchPoint),
    NoDup (map branch_id (bp :: rest)) ->
    exists items,
      snd (render (bp :: rest)) = BranchItems items
      /\ Permutation (map item (bp :: rest)) items
      /\ NoDup (map key items).
Proof.
  intros bp rest Hnd.
  exists (map item (Array_sort byCriticalityDesc (bp :: rest))).
  split; [reflexivity|].
  pose proof (Array_sort_perm (bp :: rest)) as Hp.
  split; [apply Permutation_map; exact Hp|].
  rewrite map_map; simpl.
  eapply Permutation_NoDup; [|exact Hnd].
  apply Permutation_map; exact Hp.
Qed.

(** X7. One colour per type across the views: the border colour of the
    list, the fill of a node of the graph and the swatch of the legend agree
    for every type, the legend pairs each colour with the capitalised name of
    its type, the grey fallback is never used for a declared type, and
    different types have different colours and different icons. *)
Theorem type_colours_consistent :
  (forall (d : LogicTreeVisualization.Node),
     LogicTreeVisualization.nodeFill d
     = getBranchTypeColor (LogicTreeVisualization.type d))
  /\ LogicTreeVisualization.legend
     = map (fun t => (getBranchTypeColor t, capitalize (BranchType_name t)))
         branchTypes
  /\ (forall t, getBranchTypeColor t <> lit "#999"
                /\ getBranchTypeIcon t <> [8226%N])
  /\ (forall t1 t2, getBranchTypeColor t1 = getBranchTypeColor t2 -> t1 = t2)
  /\ (forall t1 t2, getBranchTypeIcon t1 = getBranchTypeIcon t2 -> t1 = t2).
Proof.
  split; [intros d; reflexivity|].
  split; [reflexivity|].
  split; [intros t; destruct t; split; discriminate|].
  split; intros t1 t2; destruct t1, t2; intros H;
    try reflexivity; vm_compute in H; discriminate.
Qed.

End HighlighterFacts.

Lemma rendered_keys_distinct_witness :
  exists items,
    snd (BranchPointHighlighter.render [Samples.bpLow; Samples.bpHigh; Samples.bpMid])
    = BranchPointHighlighter.BranchItems items
    /\ Permutation
         (map BranchPointHighlighter.item
            [Samples.bpLow; Samples.bpHigh; Samples.bpMid]) items
    /\ NoDup (map BranchPointHighlighter.key items).
Proof.
  apply (rendered_keys_distinct Samples.bpLow [Samples.bpHigh; Samples.bpMid]).
  repeat constructor; simpl; intros H;
    repeat (destruct H as [H|H]; [vm_compute in H; discriminate|]); exact H.
Defined.

(** ** LogicTreeVisualization: nodes, labels, links, drag *)

Section LogicTreeMore.

Import LogicTreeVisualization.

Variable random : nat -> Q.

Lemma nodes_map_from {B : Type} (f : Node -> B) (g : BranchPoint -> B)
    (branchPoints : list BranchPoint) :
  (forall bp k, f (node random bp k) = g bp) ->
  forall k,
    map f (forEach_from k (fun bp j => [node random bp j]) branchPoints)
    = map g branchPoints.
Proof.
  intros Hfg; induction branchPoints as [|bp rest IH]; intros k; simpl;
    [reflexivity|].
  rewrite Hfg, IH; reflexivity.
Qed.

(** X8. The graph has one node per branch point, in the order of the
    input, carrying its [node_id], score and type; and when [Math.random]
    returns numbers in [0,1) every circle (radius 20) starts inside the 600
    by 400 svg. *)
Theorem nodes_one_per_branch_point :
  forall (branchPoints : list BranchPoint),
    (forall k, 0 <= random k /\ random k < 1) ->
    map id (nodes random branchPoints) = map node_id branchPoints
    /\ map criticality (nodes random branchPoints)
       = map criticality_score branchPoints
    /\ map type (nodes random branchPoints) = map branch_type branchPoints
    /\ Forall (fun n => 0 <= x n - 20 /\ x n + 20 <= width
                        /\ 0 <= y n - 20 /\ y n + 20 <= height)
         (nodes random branchPoints).
Proof.
  intros branchPoints Hr.
  unfold nodes, forEach.
  split; [apply nodes_map_from; reflexivity|].
  split; [apply nodes_map_from; reflexivity|].
  split; [apply nodes_map_from; reflexivity|].
  apply Forall_forall; intros n Hin.
  destruct (nodes_In_from random branchPoints 0 n Hin) as [bp [j [_ ->]]].
  unfold node; cbn [x y]; unfold width, height.
  destruct (Hr (2 * j)%nat) as [Hx0 Hx1].
  destruct (Hr (2 * j + 1)%nat) as [Hy0 Hy1].
  repeat split; lra.
Qed.

(** X9. The label of a node is the first 30 code units of the condition
    followed by three dots: at most 33 code units, and the dots are added
    even when the condition is short and nothing was cut. *)
Theorem node_label_ellipsis :
  forall (bp : BranchPoint) (k : nat),
    label (node random bp k) = firstn 30 (condition bp) ++ lit "..."
    /\ length (label (node random bp k))
       = (Nat.min 30 (length (condition bp)) + 3)%nat
    /\ ((length (condition bp) <= 30)%nat ->
        label (node random bp k) = condition bp ++ lit "...").
Proof.
  intros bp k; unfold node; cbn [label]; unfold substring0.
  split; [reflexivity|]; split.
  - rewrite length_app, length_firstn; reflexivity.
  - intros Hle; rewrite firstn_all2 by exact Hle; reflexivity.
Qed.

Lemma nonNull_In {A : Type} (xs : list (option A)) (a : A) :
  In a (nonNull xs) <-> In (Some a) xs.
Proof.
  induction xs as [|[b|] xs IH]; simpl; [tauto| |].
  - rewrite IH; split; intros [H|H]; auto; left; congruence.
  - rewrite IH; split; [auto|]; intros [H|H]; [discriminate | exact H].
Qed.

Lemma nonNull_length {A : Type} (xs : list (option A)) :
  (length (nonNull xs) <= length xs)%nat.
Proof. induction xs as [|[b|] xs IH]; simpl; lia. Qed.

(** X10. Every link that is drawn comes from a dependency and joins two
    nodes of the graph: its source and its target are [id]s of nodes, so
    the link force finds both ends; and there are no more links than
    dependencies. *)
Theorem links_join_nodes :
  forall (branchPoints : list BranchPoint) (deps : list Dependency),
    let ns := nodes random branchPoints in
    Forall (fun l =>
              (exists n, In n ns /\ id n = source l)
              /\ (exists n, In n ns /\ id n = target l)
              /\ exists dep, In dep deps
                             /\ source l = source_node_id dep
                             /\ target l = target_node_id dep
                             /\ strength l = dependency_strength dep
                             /\ cascade l = cascade_potential dep)
      (links ns deps)
    /\ (length (links ns deps) <= length deps)%nat.
Proof.
  intros branchPoints deps ns; split.
  - apply Forall_forall; intros l Hin.
    unfold links in Hin; apply nonNull_In, in_map_iff in Hin.
    destruct Hin as [dep [Hl Hdep]].
    unfold linkOf in Hl.
    destruct (find _ ns) as [s|] eqn:Es; [|discriminate].
    destruct (find (fun n => String_eq (id n) (target_node_id dep)) ns)
      as [t|] eqn:Et; [|discriminate].
    apply find_some in Es; destruct Es as [Hs Hs'].
    apply find_some in Et; destruct Et as [Ht Ht'].
    apply String_eq_true_iff in Hs'; apply String_eq_true_iff in Ht'.
    injection Hl as <-; simpl.
    split; [exists s; auto|].
    split; [exists t; auto|].
    exists dep; auto.
  - unfold links.
    eapply Nat.le_trans; [apply nonNull_length|].
    rewrite length_map; apply Nat.le_refl.
Qed.

End LogicTreeMore.

Lemma nodes_one_per_branch_point_witness :
  let random := fun _ : nat => 0.25 in
  let branchPoints := [Samples.bpLow; Samples.bpHigh] in
  map LogicTreeVisualization.id (LogicTreeVisualization.nodes random branchPoints)
  = map node_id branchPoints
  /\ map LogicTreeVisualization.criticality
       (LogicTreeVisualization.nodes random branchPoints)
     = map criticality_score branchPoints
  /\ map LogicTreeVisualization.type
       (LogicTreeVisualization.nodes random branchPoints)
     = map branch_type branchPoints
  /\ Forall (fun n =>
               0 <= LogicTreeVisualization.x n - 20
               /\ LogicTreeVisualization.x n + 20 <= LogicTreeVisualization.width
               /\ 0 <= LogicTreeVisualization.y n - 20
               /\ LogicTreeVisualization.y n + 20 <= LogicTreeVisualization.height)
       (LogicTreeVisualization.nodes random branchPoints).
Proof.
  apply (nodes_one_per_branch_point (fun _ => 0.25)
           [Samples.bpLow; Samples.bpHigh]).
  intros k; split; [discriminate | reflexivity].
Defined.

Section DragFacts.

Import LogicTreeVisualization.

Lemma dragAll_keeps (moves : list DragEvent) :
  forall sd : Simulation * Dragged,
    fst (dragAll moves sd) = fst sd
    /\ datum (snd (dragAll moves sd)) = datum (snd sd).
Proof.
  unfold dragAll.
  induction moves as [|m moves IH]; intros [sim d]; [simpl; auto|].
  cbn [fold_left].
  destruct (IH (onDrag m (sim, d))) as [H1 H2].
  rewrite H1, H2; simpl; auto.
Qed.

(** X11. A drag gesture on a node. While it lasts the node is pinned: at
    its own position after the start, at the pointer after every move. When
    it ends the node is unpinned. The handlers never write the position
    [x], [y] nor anything else of the node. A gesture that starts with no
    other gesture active raises the alpha target to 0.3 and restarts the
    timer; one that ends with no other active sets the target back to 0;
    with others active at both ends the simulation is left as it was. *)
Theorem drag_gesture :
  forall (start finish : DragEvent) (moves : list DragEvent)
         (simulation : Simulation) (d : Dragged),
    let during := dragAll moves (onDragStart start (simulation, d)) in
    let after := gesture start moves finish (simulation, d) in
    datum (snd during) = datum d
    /\ datum (snd after) = datum d
    /\ (moves = [] ->
        fx (snd during) = Some (x (datum d))
        /\ fy (snd during) = Some (y (datum d)))
    /\ (forall earlier m, moves = earlier ++ [m] ->
        fx (snd during) = Some (pointerX m)
        /\ fy (snd during) = Some (pointerY m))
    /\ fx (snd after) = None /\ fy (snd after) = None
    /\ (active start = 0%nat ->
        alphaTarget (fst during) = 0.3 /\ timerRunning (fst during) = true)
    /\ (active finish = 0%nat -> alphaTarget (fst after) = 0)
    /\ (active start <> 0%nat -> active finish <> 0%nat ->
        fst after = simulation).
Proof.
  intros start finish moves simulation d during after.
  destruct (dragAll_keeps moves (onDragStart start (simulation, d)))
    as [Hsim Hdatum].
  assert (Hafter : after = onDragEnd finish during) by reflexivity.
  clearbody after.
  assert (Ed : dragAll moves (onDragStart start (simulation, d)) = during)
    by reflexivity.
  clearbody during.
  rewrite Ed in Hsim, Hdatum.
  destruct during as [sim' d']; simpl in Hsim, Hdatum.
  split; [exact Hdatum|].
  split; [rewrite Hafter; exact Hdatum|].
  split.
  { intros ->; unfold dragAll in Ed; simpl in Ed.
    injection Ed as _ <-; auto. }
  split.
  { intros earlier m ->; unfold dragAll in Ed.
    rewrite fold_left_app in Ed; cbn [fold_left] in Ed.
    destruct (fold_left _ earlier _) as [s0 d0].
    injection Ed as _ <-; auto. }
  rewrite Hafter; simpl.
  split; [reflexivity|]; split; [reflexivity|].
  split.
  { intros H0; rewrite Hsim, H0; auto. }
  split.
  { intros H0; rewrite H0; reflexivity. }
  intros Hs Hf.
  apply Nat.eqb_neq in Hs; apply Nat.eqb_neq in Hf.
  rewrite Hf, Hsim, Hs; reflexivity.
Qed.

End DragFacts.

(** ** CounterfactualDemo: every submission, and the component at rest *)

Lemma trimStart_nil_blank (s : jsstring) : trimStart s = [] -> blank s.
Proof.
  induction s as [|c r IH]; simpl; [constructor|].
  destruct (isWhiteSpace c) eqn:E; [|discriminate].
  intros H; constructor; [exact E | exact (IH H)].
Qed.

Lemma trimStart_head (s : jsstring) (c : N) (r : jsstring) :
  trimStart s = c :: r -> isWhiteSpace c = false.
Proof.
  induction s as [|c0 r0 IH]; simpl; [discriminate|].
  destruct (isWhiteSpace c0) eqn:E; [exact IH|].
  intros H; injection H as <- _; exact E.
Qed.

(** [trim] leaves nothing exactly when the string is blank. *)
Lemma trim_nil_iff (s : jsstring) : trim s = [] <-> blank s.
Proof.
  split; [|apply trim_blank].
  unfold trim, trimEnd; intros H.
  assert (H' : trimStart (rev (trimStart s)) = []).
  { destruct (trimStart (rev (trimStart s))) as [|c r]; [reflexivity|].
    simpl in H; destruct (rev r); discriminate. }
  apply trimStart_nil_blank in H'.
  destruct (trimStart s) as [|c r] eqn:E; [apply trimStart_nil_blank; exact E|].
  exfalso.
  apply Forall_rev in H'; rewrite rev_involutive in H'.
  inversion H' as [|? ? Hc _]; subst.
  rewrite (trimStart_head s c r E) in Hc; discriminate.
Qed.

Section SubmitMore.

Import CounterfactualDemo.

Context {World : Type}.
Variable extract : Json -> World -> (AxiosError + AxiosResponse Json) * World.
Variable analyze :
  Json -> World -> (AxiosError + AxiosResponse CounterfactualAnalysis) * World.
Variable env : option jsstring.

(** A submission of a text that is not blank ends in one of two ways. *)
Lemma submit_cases (st : State) (w : World) :
  trim (inputText st) <> [] ->
  let r := submit extract analyze env st w in
  fst r = Returned tt
  /\ ((exists err tail,
         ui (snd r)
         = {| inputText := inputText st; analysis := analysis st;
              loading := false;
              error := Some (orElse (errorDetail err) genericFailure);
              showAttorneyModal := showAttorneyModal st |}
         /\ trace (snd r)
            = SetLoading true :: SetError None
              :: Post (extractUrl env) (extractBody (inputText st))
              :: tail ++ [SetLoading false]
         /\ (tail = [ SetError (Some (orElse (errorDetail err) genericFailure));
                      ConsoleError err ]
             \/ exists body,
                  tail = [ Post (analyzeUrl env) body;
                           SetError (Some (orElse (errorDetail err)
                                             genericFailure));
                           ConsoleError err ]))
      \/ (exists res body,
            ui (snd r)
            = {| inputText := inputText st; analysis := Some res;
                 loading := false; error := None;
                 showAttorneyModal :=
                   if triggered (attorney_referral res) then true
                   else showAttorneyModal st |}
            /\ trace (snd r)
               = SetLoading true :: SetError None
                 :: Post (extractUrl env) (extractBody (inputText st))
                 :: ([ Post (analyzeUrl env) body; SetAnalysis res ]
                     ++ (if triggered (attorney_referral res)
                         then [SetShowAttorneyModal true] else []))
                    ++ [SetLoading false])).
Proof.
  intros Hin r; subst r.
  destruct (extract (extractBody (inputText st)) w) as [[err|cir] w1] eqn:He.
  - rewrite (submit_extract_fails extract analyze env st w _ _ Hin He).
    split; [reflexivity|]; left; exists err.
    exists [ SetError (Some (orElse (errorDetail err) genericFailure));
             ConsoleError err ]; simpl.
    split; [reflexivity|]; split; [reflexivity|]; left; reflexivity.
  - destruct (analyze (analyzeBody (data cir)) w1) as [[err|res] w2] eqn:Ha.
    + rewrite (submit_analyze_fails extract analyze env st w _ _ _ _ Hin He Ha).
      split; [reflexivity|]; left; exists err.
      exists [ Post (analyzeUrl env) (analyzeBody (data cir));
               SetError (Some (orElse (errorDetail err) genericFailure));
               ConsoleError err ]; simpl.
      split; [reflexivity|]; split; [reflexivity|]; right; eexists; reflexivity.
    + rewrite (submit_succeeds extract analyze env st w _ _ _ _ Hin He Ha).
      split; [reflexivity|]; right.
      exists (data res), (analyzeBody (data cir)); simpl.
      split; [reflexivity|].
      destruct (triggered (attorney_referral (data res))); reflexivity.
Qed.

(** X12. Whatever the service answers, a submission of a text that is not
    blank returns normally (no exception leaves the handler) with [loading]
    false and the text untouched; its trace starts with [setLoading(true)],
    [setError(null)] and the extraction request, ends with
    [setLoading(false)], sets [loading] nowhere in between, and holds at
    most two requests. *)
Theorem submit_always_settles :
  forall (st : State) (w : World),
    trim (inputText st) <> [] ->
    let r := submit extract analyze env st w in
    fst r = Returned tt
    /\ loading (ui (snd r)) = false
    /\ inputText (ui (snd r)) = inputText st
    /\ (exists middle,
          trace (snd r)
          = SetLoading true :: SetError None
            :: Post (extractUrl env) (extractBody (inputText st))
            :: middle ++ [SetLoading false]
          /\ filter (isSetLoading true) middle = []
          /\ filter (isSetLoading false) middle = [])
    /\ (1 <= length (filter isPost (trace (snd r))) <= 2)%nat.
Proof.
  intros st w Hin r.
  destruct (submit_cases st w Hin) as [Hret Hcases]; fold r in Hret, Hcases.
  split; [exact Hret|].
  destruct Hcases as [[err [tail [Hui [Htr Htail]]]]|[res [body [Hui Htr]]]];
    rewrite Hui, Htr; simpl.
  - split; [reflexivity|]; split; [reflexivity|]; split.
    + exists tail; split; [reflexivity|].
      destruct Htail as [->|[b ->]]; split; reflexivity.
    + destruct Htail as [->|[b ->]]; simpl; lia.
  - split; [reflexivity|]; split; [reflexivity|]; split.
    + exists ([ Post (analyzeUrl env) body; SetAnalysis res ]
              ++ (if triggered (attorney_referral res)
                  then [SetShowAttorneyModal true] else [])).
      split; [reflexivity|].
      destruct (triggered (attorney_referral res)); split; reflexivity.
    + destruct (triggered (attorney_referral res)); simpl; lia.
Qed.

(** X13. A rejected extraction ends the calls: the extraction is the only
    request, the service is left as the extraction left it, and nothing of
    the run depends on how the analysis endpoint would have answered. *)
Theorem extract_failure_short_circuits :
  forall (st : State) (w w' : World) (err : AxiosError),
    trim (inputText st) <> [] ->
    extract (extractBody (inputText st)) w = (inl err, w') ->
    let run := snd (submit extract analyze env st w) in
    filter isPost (trace run)
    = [Post (extractUrl env) (extractBody (inputText st))]
    /\ world run = w'
    /\ forall analyze',
         submit extract analyze' env st w = submit extract analyze env st w.
Proof.
  intros st w w' err Hin He run; subst run.
  rewrite (submit_extract_fails extract analyze env st w _ _ Hin He).
  split; [reflexivity|]; split; [reflexivity|].
  intros analyze'.
  apply (submit_extract_fails extract analyze' env st w _ _ Hin He).
Qed.

(** X15. No request is issued exactly when the text is blank. The analyze
    button is disabled on exactly those texts (and while loading), so a
    click on the enabled button never takes the validation branch: it
    sets [loading] and posts the extraction. *)
Theorem request_iff_not_blank :
  forall (st : State) (w : World),
    let run := snd (submit extract analyze env st w) in
    (filter isPost (trace run) = [] <-> blank (inputText st))
    /\ (blank (inputText st) -> analyzeDisabled st = true)
    /\ (analyzeDisabled st = false ->
        exists rest,
          trace run
          = SetLoading true :: SetError None
            :: Post (extractUrl env) (extractBody (inputText st)) :: rest).
Proof.
  intros st w run.
  assert (Hnb : trim (inputText st) <> [] ->
                exists rest,
                  trace run
                  = SetLoading true :: SetError None
                    :: Post (extractUrl env) (extractBody (inputText st))
                    :: rest).
  { intros Hin.
    destruct (submit_cases st w Hin)
      as [_ [[err [tail [_ [Ht _]]]]|[res [body [_ Ht]]]]];
      fold run in Ht; eexists; exact Ht. }
  split; [split|split].
  - intros Hposts.
    apply trim_nil_iff.
    destruct (trim (inputText st)) as [|c r] eqn:E; [reflexivity|].
    destruct Hnb as [rest Ht]; [discriminate|].
    rewrite Ht in Hposts; discriminate.
  - intros Hb; subst run.
    rewrite (submit_blank extract analyze env st w (trim_blank _ Hb)).
    reflexivity.
  - intros Hb; unfold analyzeDisabled.
    rewrite (trim_blank _ Hb); simpl; apply orb_true_r.
  - intros Hen; apply Hnb.
    unfold analyzeDisabled in Hen; apply orb_false_iff in Hen.
    destruct Hen as [_ Hen].
    destruct (trim (inputText st)); [discriminate Hen | discriminate].
Qed.

(** X16. At rest, in every state the component can reach from its mounted
    state by edits, sample loads, clicks on the enabled analyze button and
    closings of the shown modal: [loading] is false, and the modal flag is
    set only while a result is held, so the modal is shown exactly when the
    flag is set. *)
Theorem reachable_invariant :
  forall (w0 : World) (st : State) (w : World),
    Reachable extract analyze env w0 (st, w) ->
    loading st = false
    /\ (showAttorneyModal st = true -> analysis st <> None)
    /\ modalVisible st = showAttorneyModal st.
Proof.
  intros w0 st w Hr.
  assert (Hinv : loading st = false
                 /\ (showAttorneyModal st = true -> analysis st <> None)).
  { remember (st, w) as sw eqn:Esw; revert st w Esw.
    induction Hr as [|a b Ha IH Hstep]; intros st w Esw.
    - injection Esw as <- <-; split; [reflexivity | discriminate].
    - destruct Hstep as [st0 w1 text|st0 w1|st0 w1 Hen|st0 w1 Hvis];
        destruct (IH st0 w1 eq_refl) as [Hl Hm];
        injection Esw as <- _; try (split; assumption).
      + assert (Hin : trim (inputText st0) <> []).
        { unfold analyzeDisabled in Hen; apply orb_false_iff in Hen.
          destruct Hen as [_ Hen].
          destruct (trim (inputText st0)); [discriminate Hen | discriminate]. }
        destruct (submit_cases st0 w1 Hin)
          as [_ [[err [tail [Hui _]]]|[res [body [Hui _]]]]];
          rewrite Hui; simpl; split; try reflexivity; try assumption.
        intros _; discriminate.
      + split; [exact Hl | discriminate]. }
  destruct Hinv as [Hl Hm]; split; [exact Hl|]; split; [exact Hm|].
  unfold modalVisible.
  destruct (showAttorneyModal st) eqn:Es; [|reflexivity].
  destruct (analysis st); [reflexivity|].
  exfalso; apply Hm; reflexivity.
Qed.

Lemma forEach_from_cons {A B : Type} (f : A -> nat -> list B) (k : nat)
    (x : A) (xs : list A) :
  forEach_from k f (x :: xs) = f x k ++ forEach_from (S k) f xs.
Proof. reflexivity. Qed.

Lemma chain_from (n : nat) (xs : list jsstring) :
  forall (k : nat) (a : jsstring),
    (k + length (a :: xs) = n)%nat ->
    forEach_from k
      (fun node idx =>
         ChainNode node
         :: (if (Z.of_nat idx <? Z.of_nat n - 1)%Z then [ChainArrow] else []))
      (a :: xs)
    = ChainNode a :: flat_map (fun node => [ChainArrow; ChainNode node]) xs.
Proof.
  induction xs as [|b xs IH]; intros k a Hk; cbn [length] in Hk.
  - cbn [forEach_from flat_map].
    replace (Z.of_nat k <? Z.of_nat n - 1)%Z with false
      by (symmetry; apply Z.ltb_ge; lia).
    reflexivity.
  - rewrite forEach_from_cons, (IH (S k) b) by (cbn [length]; lia).
    replace (Z.of_nat k <? Z.of_nat n - 1)%Z with true
      by (symmetry; apply Z.ltb_lt; lia).
    reflexivity.
Qed.

(** X17. The chain of a cascade is shown as its nodes in order with one
    arrow between each two neighbours: none before the first, none after the
    last, and nothing at all for an empty chain. *)
Theorem cascadeChain_arrows :
  cascadeChain [] = []
  /\ forall (first : jsstring) (rest : list jsstring),
       cascadeChain (first :: rest)
       = ChainNode first
         :: flat_map (fun node => [ChainArrow; ChainNode node]) rest.
Proof.
  split; [reflexivity|].
  intros first rest; unfold cascadeChain, forEach.
  apply chain_from; reflexivity.
Qed.

End SubmitMore.

Lemma submit_always_settles_witness :
  let r := CounterfactualDemo.submit Samples.extractOk Samples.analyzeRejects
             None Samples.sampleLoaded 0%nat in
  fst r = CounterfactualDemo.Returned tt
  /\ CounterfactualDemo.loading (CounterfactualDemo.ui (snd r)) = false
  /\ CounterfactualDemo.inputText (CounterfactualDemo.ui (snd r))
     = CounterfactualDemo.inputText Samples.sampleLoaded
  /\ (exists middle,
        CounterfactualDemo.trace (snd r)
        = CounterfactualDemo.SetLoading true
          :: CounterfactualDemo.SetError None
          :: CounterfactualDemo.Post (CounterfactualDemo.extractUrl None)
               (CounterfactualDemo.extractBody
                  (CounterfactualDemo.inputText Samples.sampleLoaded))
          :: middle ++ [CounterfactualDemo.SetLoading false]
        /\ filter (CounterfactualDemo.isSetLoading true) middle = []
        /\ filter (CounterfactualDemo.isSetLoading false) middle = [])
  /\ (1 <= length (filter CounterfactualDemo.isPost
                     (CounterfactualDemo.trace (snd r))) <= 2)%nat.
Proof.
  apply (submit_always_settles Samples.extractOk Samples.analyzeRejects None
           Samples.sampleLoaded 0%nat).
  vm_compute; discriminate.
Defined.

Lemma extract_failure_short_circuits_witness :
  let run := snd (CounterfactualDemo.submit Samples.extractUnreachable
                    Samples.analyzeOk None Samples.sampleLoaded 0%nat) in
  filter CounterfactualDemo.isPost (CounterfactualDemo.trace run)
  = [ CounterfactualDemo.Post (CounterfactualDemo.extractUrl None)
        (CounterfactualDemo.extractBody
           (CounterfactualDemo.inputText Samples.sampleLoaded)) ]
  /\ CounterfactualDemo.world run = 0%nat
  /\ forall analyze',
       CounterfactualDemo.submit Samples.extractUnreachable analyze' None
         Samples.sampleLoaded 0%nat
       = CounterfactualDemo.submit Samples.extractUnreachable Samples.analyzeOk
           None Samples.sampleLoaded 0%nat.
Proof.
  apply (extract_failure_short_circuits Samples.extractUnreachable
           Samples.analyzeOk None Samples.sampleLoaded 0%nat 0%nat
           {| response := None |}).
  - vm_compute; discriminate.
  - reflexivity.
Defined.

Lemma reachable_invariant_witness :
  let run := snd (CounterfactualDemo.submit Samples.extractOk Samples.analyzeOk
                    None Samples.sampleLoaded 0%nat) in
  CounterfactualDemo.loading (CounterfactualDemo.ui run) = false
  /\ (CounterfactualDemo.showAttorneyModal (CounterfactualDemo.ui run) = true ->
      CounterfactualDemo.analysis (CounterfactualDemo.ui run) <> None)
  /\ CounterfactualDemo.modalVisible (CounterfactualDemo.ui run)
     = CounterfactualDemo.showAttorneyModal (CounterfactualDemo.ui run).
Proof.
  apply (reachable_invariant Samples.extractOk Samples.analyzeOk None 0%nat
           _ (CounterfactualDemo.world
                (snd (CounterfactualDemo.submit Samples.extractOk
                        Samples.analyzeOk None Samples.sampleLoaded 0%nat)))).
  eapply CounterfactualDemo.ReachStep.
  - eapply CounterfactualDemo.ReachStep.
    + apply CounterfactualDemo.ReachMounted.
    + apply CounterfactualDemo.StepLoadSample.
  - apply (CounterfactualDemo.StepAnalyze Samples.extractOk Samples.analyzeOk
             None Samples.sampleLoaded 0%nat).
    vm_compute; reflexivity.
Defined.

(** ** AttorneyReferralModal: clicks *)

Section ModalFacts.

Import AttorneyReferralModal.

(** X18. A click on the modal calls [onClose] at most once. It calls it
    once on the overlay, on the close button and on the acknowledgement
    button (the content box stops the click of a button before it reaches
    the overlay), and not at all on a referral link or anywhere else in the
    content. A closing click hides the modal and changes nothing else of
    the state; any other click changes nothing. *)
Theorem modal_click :
  forall (target : Element) (st : CounterfactualDemo.State),
    (onCloseCalls (bubblePath target) <= 1)%nat
    /\ click target st
       = match target with
         | Overlay | CloseButton | PrimaryButton =>
             CounterfactualDemo.closeModal st
         | Content | ReferralLink _ | OtherContent => st
         end
    /\ CounterfactualDemo.modalVisible (CounterfactualDemo.closeModal st) = false
    /\ CounterfactualDemo.analysis (CounterfactualDemo.closeModal st)
       = CounterfactualDemo.analysis st
    /\ CounterfactualDemo.inputText (CounterfactualDemo.closeModal st)
       = CounterfactualDemo.inputText st
    /\ CounterfactualDemo.error (CounterfactualDemo.closeModal st)
       = CounterfactualDemo.error st.
Proof.
  intros target st.
  split; [destruct target; simpl; lia|].
  split; [destruct target; reflexivity|].
  repeat split.
Qed.

End ModalFacts.

(** ** The page: the drawings after the list has rendered *)

Section PageFacts.

Import CounterfactualDemo.

Lemma filter_riskData (cascades : list Cascade) (t : BranchType)
    (bps : list BranchPoint) :
  filter (RiskHeatmap.ofType t) (RiskHeatmap.riskData bps cascades)
  = RiskHeatmap.riskData (filter (hasType t) bps) cascades.
Proof.
  unfold RiskHeatmap.riskData.
  induction bps as [|bp bps IH]; simpl; [reflexivity|].
  unfold RiskHeatmap.ofType at 1, hasType at 1; simpl.
  destruct (BranchType_eqb t (branch_type bp)); simpl; rewrite IH; reflexivity.
Qed.

Lemma StronglySorted_filter_notBelow (p : BranchPoint -> bool)
    (l : list BranchPoint) :
  StronglySorted notBelow l -> StronglySorted notBelow (filter p l).
Proof.
  induction 1 as [|a l Hs IH Ha]; simpl; [constructor|].
  destruct (p a); [|exact IH].
  constructor; [exact IH|].
  apply Forall_forall; intros x Hx.
  apply filter_In in Hx; destruct Hx as [Hx _].
  rewrite Forall_forall in Ha; exact (Ha x Hx).
Qed.

(** X19. In the page the two drawings are made from the branch-point array
    as the list left it, that is sorted: the heatmap and the graph of
    [renderResults] are those of the sorted array, and every row of the
    heatmap therefore holds the branch points of its type by non-increasing
    criticality, whatever order they arrived in. *)
Theorem page_drawn_from_sorted_array :
  forall (random : nat -> Q) (a : CounterfactualAnalysis),
    let sorted :=
      Array_sort BranchPointHighlighter.byCriticalityDesc (branch_points a) in
    heatmap (renderResults random a)
    = RiskHeatmap.effect sorted (cascades a) []
    /\ logicTree (renderResults random a)
       = LogicTreeVisualization.effect random sorted (dependencies a) []
    /\ forall t items,
         In (t, items)
           (RiskHeatmap.typeGroups (RiskHeatmap.riskData sorted (cascades a))) ->
         items = RiskHeatmap.riskData (filter (hasType t) sorted) (cascades a)
         /\ StronglySorted notBelow (filter (hasType t) sorted).
Proof.
  intros random a sorted.
  assert (Hr : BranchPointHighlighter.render (branch_points a)
               = (sorted, snd (BranchPointHighlighter.render (branch_points a)))).
  { unfold sorted; rewrite <- (render_array (branch_points a)).
    destruct (BranchPointHighlighter.render (branch_points a)); reflexivity. }
  unfold renderResults; rewrite Hr; cbn [heatmap logicTree].
  split; [reflexivity|]; split; [reflexivity|].
  intros t items Hin.
  destruct (typeGroups_row (RiskHeatmap.riskData sorted (cascades a))
              t items Hin) as [-> _].
  split; [apply filter_riskData|].
  apply StronglySorted_filter_notBelow, Array_sort_sorted.
Qed.

Context {World : Type}.
Variable extract : Json -> World -> (AxiosError + AxiosResponse Json) * World.
Variable analyze :
  Json -> World -> (AxiosError + AxiosResponse CounterfactualAnalysis) * World.
Variable env : option jsstring.

Lemma orElse_truthy (d : option Json) : truthy (orElse d genericFailure) = true.
Proof.
  unfold orElse; destruct d as [v|]; [|reflexivity].
  destruct (truthy v) eqn:E; [exact E | reflexivity].
Qed.

(** X20. The error message a submission leaves is never a falsy value:
    when the error state is set at the end of a submission, it holds the
    validation message, the generic failure string or a truthy [detail], so
    the guard [error &&] of the error block never hides a failure, also when
    the rejected response carries an empty, null or zero [detail]. *)
Theorem error_never_falsy :
  forall (st : State) (w : World) (e : Json),
    error (ui (snd (submit extract analyze env st w))) = Some e ->
    truthy e = true.
Proof.
  intros st w e He.
  destruct (trim (inputText st)) as [|c r] eqn:Et.
  - rewrite (submit_blank extract analyze env st w Et) in He.
    injection He as <-; reflexivity.
  - assert (Hin : trim (inputText st) <> []) by (rewrite Et; discriminate).
    destruct (submit_cases extract analyze env st w Hin)
      as [_ [[err [tail [Hui _]]]|[res [body [Hui _]]]]];
      rewrite Hui in He; simpl in He.
    + injection He as <-; apply orElse_truthy.
    + discriminate.
Qed.

End PageFacts.

Lemma error_never_falsy_witness :
  truthy (JStr (lit "Narrative too short")) = true.
Proof.
  apply (error_never_falsy Samples.extractOk Samples.analyzeRejects None
           Samples.sampleLoaded 0%nat (JStr (lit "Narrative too short"))).
  vm_compute; reflexivity.
Defined.
